(** * SYDNY voice assistant: the command parser, the confirmation gate,
      the Windows collaborator and the task store.

    Shallow embedding of [main.py], [windows_system.py] and
    [task_system.py] (the parser of [sydny_integrated.py] is the same
    text as the one of [main.py]).

    Python [str] values are embedded as [string]; the text functions below
    ([lower], [split], [isdigit]) follow Python on ASCII text, which is what
    the small English recognition model produces. *)

From Stdlib Require Import List String Ascii Bool ZArith Lia.
From Stdlib Require Import DecimalString.
Import ListNotations.
Local Open Scope string_scope.
Local Open Scope list_scope.

(** ** Python text primitives *)

Module Py.

(** [c.lower()] on an ASCII character. *)
Definition lower_ascii (c : ascii) : ascii :=
  let n := nat_of_ascii c in
  if (65 <=? n)%nat && (n <=? 90)%nat then ascii_of_nat (n + 32) else c.

(** [s.lower()]. *)
Fixpoint lower (s : string) : string :=
  match s with
  | EmptyString => EmptyString
  | String c s' => String (lower_ascii c) (lower s')
  end.

(** Characters on which [str.split()] without argument cuts: tab, line
    feed, vertical tab, form feed, carriage return, the four separators
    0x1c-0x1f and the space. *)
Definition is_space (c : ascii) : bool :=
  let n := nat_of_ascii c in
  ((9 <=? n)%nat && (n <=? 13)%nat) || ((28 <=? n)%nat && (n <=? 32)%nat).

Definition flush (cur : string) : list string :=
  match cur with
  | EmptyString => []
  | _ => [cur]
  end.

(** [split_from cur s]: the words of [s], [cur] being the word read so
    far. *)
Fixpoint split_from (cur : string) (s : string) : list string :=
  match s with
  | EmptyString => flush cur
  | String c s' =>
      if is_space c then flush cur ++ split_from EmptyString s'
      else split_from (cur ++ String c EmptyString) s'
  end.

(** [s.split()]: maximal runs of non-blank characters, in order. *)
Definition split (s : string) : list string := split_from EmptyString s.

(** [sep.join(l)]. *)
Definition join (sep : string) (l : list string) : string := concat sep l.

(** [x in l] for a list of strings. *)
Definition mem (x : string) (l : list string) : bool :=
  existsb (String.eqb x) l.

(** [l.remove(x)] when [x] is in [l]: the first occurrence goes. *)
Fixpoint list_remove (x : string) (l : list string) : list string :=
  match l with
  | [] => []
  | y :: l' => if String.eqb x y then l' else y :: list_remove x l'
  end.

(** [[w for w in l if w not in ks]]. *)
Definition without (ks : list string) (l : list string) : list string :=
  filter (fun w => negb (mem w ks)) l.

Definition is_digit (c : ascii) : bool :=
  let n := nat_of_ascii c in (48 <=? n)%nat && (n <=? 57)%nat.

Fixpoint all_digits (s : string) : bool :=
  match s with
  | EmptyString => true
  | String c s' => is_digit c && all_digits s'
  end.

(** [s.isdigit()] on ASCII text: false on the empty string.  Off ASCII
    Python's test also holds of other digit characters, such as the
    superscript two, that [int] refuses: what is stated of the words it
    accepts is stated of ASCII text ([isascii]). *)
Definition isdigit (s : string) : bool :=
  match s with
  | EmptyString => false
  | _ => all_digits s
  end.

(** [s.isascii()]: every character is below 128. *)
Fixpoint isascii (s : string) : bool :=
  match s with
  | EmptyString => true
  | String c s' => (nat_of_ascii c <? 128)%nat && isascii s'
  end.

(** [needle in hay] for two strings: substring test. *)
Fixpoint contains (needle hay : string) : bool :=
  prefix needle hay ||
  match hay with
  | EmptyString => false
  | String _ hay' => contains needle hay'
  end.

(** Truth value of a list, as in [if cleaned_words:]. *)
Definition truthy {A : Type} (l : list A) : bool :=
  match l with
  | [] => false
  | _ => true
  end.

(** [s.lstrip()], [s.rstrip()] and [s.strip()]. *)
Fixpoint lstrip (s : string) : string :=
  match s with
  | EmptyString => EmptyString
  | String c s' => if is_space c then lstrip s' else s
  end.

Fixpoint rstrip (s : string) : string :=
  match s with
  | EmptyString => EmptyString
  | String c s' =>
      match rstrip s' with
      | EmptyString => if is_space c then EmptyString else String c EmptyString
      | r => String c r
      end
  end.

Definition strip (s : string) : string := rstrip (lstrip s).

(** [str(n)] for an integer. *)
Definition str_of_int (n : Z) : string := NilZero.string_of_int (Z.to_int n).

End Py.

(** ** The command parser ([parse_command], [main.py] and
       [sydny_integrated.py]) *)

Module Parser.
Import Py.

Definition filler_words : list string :=
  [ "please"; "could"; "you"; "can"; "would"; "will";
    "up"; "the"; "a"; "an"; "for"; "me"; "my" ].

(** [words = text.lower().split()] then the comprehension that drops the
    filler words. *)
Definition strip_fillers (text : string) : list string :=
  without filler_words (split (lower text)).

(** The pair [(intent, target)] the function returns; [None] is Python's
    [None]. *)
Definition result : Type := option string * option string.

(** A rule of the cascade works on [cleaned_words], which it may rebind
    or mutate; it either returns or lets the next rule run on the list
    as it left it. *)
Definition rule : Type := list string -> option result * list string.

(** The shape the first five rules share:
    [if <guard>: cleaned_words = <extract>; if cleaned_words: return
    (intent, " ".join(cleaned_words))]. *)
Definition target_rule (guard : list string -> bool)
    (extract : list string -> list string) (intent : string) : rule :=
  fun cw =>
    if guard cw then
      let cw := extract cw in
      if truthy cw then (Some (Some intent, Some (join " " cw)), cw)
      else (None, cw)
    else (None, cw).

(** [if "file" in cleaned_words and "open" in cleaned_words:] *)
Definition guard_openfile (cw : list string) : bool :=
  mem "file" cw && mem "open" cw.
Definition extract_openfile : list string -> list string :=
  without ["open"; "file"].
Definition rule_openfile : rule :=
  target_rule guard_openfile extract_openfile "openfile".

(** [if "open" in cleaned_words:] with [cleaned_words.remove("open")] *)
Definition guard_open (cw : list string) : bool := mem "open" cw.
Definition extract_open : list string -> list string := list_remove "open".
Definition rule_open : rule := target_rule guard_open extract_open "open".

(** [if "close" in cleaned_words:] with [cleaned_words.remove("close")] *)
Definition guard_close (cw : list string) : bool := mem "close" cw.
Definition extract_close : list string -> list string :=
  list_remove "close".
Definition rule_close : rule :=
  target_rule guard_close extract_close "close".

(** [if "search" in cleaned_words or "find" in cleaned_words:] *)
Definition guard_search (cw : list string) : bool :=
  mem "search" cw || mem "find" cw.
Definition extract_search : list string -> list string :=
  without ["search"; "find"; "file"].
Definition rule_search : rule :=
  target_rule guard_search extract_search "search".

(** [if "delete" in cleaned_words:] *)
Definition guard_delete (cw : list string) : bool := mem "delete" cw.
Definition extract_delete : list string -> list string :=
  without ["delete"; "file"].
Definition rule_delete : rule :=
  target_rule guard_delete extract_delete "delete".

(** The five rules with a joined target, in the order of the source:
    intent, guard and extraction. *)
Definition entry : Type :=
  (string * (list string -> bool) * (list string -> list string))%type.

Definition target_table : list entry :=
  [ ("openfile", guard_openfile, extract_openfile);
    ("open", guard_open, extract_open);
    ("close", guard_close, extract_close);
    ("search", guard_search, extract_search);
    ("delete", guard_delete, extract_delete) ].

(** The first rule of a table whose guard holds on [cw]. *)
Fixpoint first_entered (table : list entry) (cw : list string)
    : option entry :=
  match table with
  | [] => None
  | (i, g, e) :: table' =>
      if g cw then Some (i, g, e) else first_entered table' cw
  end.

(** [if "volume" in cleaned_words:]; the [for] loop returns the first
    word that is all digits. *)
Definition rule_volume : rule := fun cw =>
  if mem "volume" cw then
    let cw := list_remove "volume" cw in
    (Some (Some "volume", find isdigit cw), cw)
  else (None, cw).

(** The rules without a target. *)
Definition rule_keyword (keys : list string) (intent : string) : rule :=
  fun cw =>
    if existsb (fun k => mem k cw) keys then (Some (Some intent, None), cw)
    else (None, cw).

(** Sequencing of two rules: the second one sees the list the first one
    left. *)
Definition orelse (r1 r2 : rule) : rule := fun cw =>
  match r1 cw with
  | (Some res, cw') => (Some res, cw')
  | (None, cw') => r2 cw'
  end.

Infix "<|>" := orelse (at level 61, right associativity).

(** The five rules that extract a joined target. *)
Definition target_rules : rule :=
  rule_openfile <|> rule_open <|> rule_close <|> rule_search <|> rule_delete.

(** The rules after them. *)
Definition later_rules : rule :=
  rule_volume
  <|> rule_keyword ["mute"] "mute"
  <|> rule_keyword ["unmute"] "unmute"
  <|> rule_keyword ["shutdown"; "shut"] "shutdown"
  <|> rule_keyword ["restart"] "restart"
  <|> rule_keyword ["sleep"] "sleep"
  <|> rule_keyword ["exit"; "quit"] "exit".

Definition cascade : rule := target_rules <|> later_rules.

(** The cascade on a list of cleaned words; [(None, None)] when no rule
    returns. *)
Definition parse_words (cw : list string) : result :=
  match fst (cascade cw) with
  | Some res => res
  | None => (None, None)
  end.

Definition parse_command (text : string) : result :=
  parse_words (strip_fillers text).

End Parser.

(** ** The Windows collaborator ([windows_system.py]) *)

Module Windows.
Import Py.
Local Open Scope string_scope.

(** The exceptions the module tells apart in its [except] clauses; [msg]
    is [str(e)]. *)
Inductive exn_kind : Type :=
| CalledProcessError
| FileNotFoundError
| PermissionError
| OtherException.

Record exn : Type := MkExn { kind : exn_kind; msg : string }.

(** The operating system as the module reaches it through [pycaw],
    [subprocess], [os], [shutil] and [pathlib].  A call that can raise
    gives the system it leaves behind and, when it raised, the
    exception. *)
Class Platform (OS : Type) : Type := {
  (** [get_volume_interface() is not None] *)
  volume_interface : OS -> bool;
  (** [volume.SetMasterVolumeLevelScalar(level / 100.0, None)] *)
  SetMasterVolumeLevelScalar : Z -> OS -> OS * option exn;
  (** [volume.SetMute(flag, None)] *)
  SetMute : bool -> OS -> OS * option exn;
  (** [subprocess.run(args, check=True)] *)
  run_checked : list string -> OS -> OS * option exn;
  (** [subprocess.run(args, capture_output=True, text=True)]: the return
      code and the captured standard error *)
  run_captured : list string -> OS -> OS * (Z * string + exn);
  (** [subprocess.Popen(cmd, shell=True)] *)
  Popen : string -> OS -> OS * option exn;
  (** [os.path.exists], [os.path.isfile] *)
  path_exists : string -> OS -> bool;
  path_isfile : string -> OS -> bool;
  (** [os.startfile], [shutil.move], [os.remove] *)
  startfile : string -> OS -> OS * option exn;
  move : string -> string -> OS -> OS * option exn;
  remove : string -> OS -> OS * option exn;
  (** [Path(p).name] *)
  path_name : string -> string;
  (** [get_search_paths()]: the existing ones of Desktop, Documents,
      Downloads and the home directory, or nothing when that fails *)
  get_search_paths : OS -> list string;
  (** [search_path.glob(pattern)]: for each item it yields, [str(item)]
      and [item.is_file()], and the exception that ends the iteration, if
      any *)
  glob : string -> string -> OS -> list (string * bool) * option exn
}.

Section Module_state.
Context {OS : Type} `{Platform OS}.

(** The module: its global flag and the system it drives. *)
Record State : Type := MkState { ANNOUNCE_ONLY : bool; os : OS }.

Definition with_os (w : State) (o : OS) : State :=
  {| ANNOUNCE_ONLY := ANNOUNCE_ONLY w; os := o |}.

Definition set_announce_mode (enabled : bool) (w : State) : State :=
  {| ANNOUNCE_ONLY := enabled; os := os w |}.

(** A function of the module: the string it returns and the state it
    leaves. *)
Definition call : Type := State -> string * State.

(** [try: <external call>; return ok  except ...: return handler(e)] *)
Definition attempt (act : OS -> OS * option exn) (ok : string)
    (handler : exn -> string) (w : State) : string * State :=
  match act (os w) with
  | (o, None) => (ok, with_os w o)
  | (o, Some e) => (handler e, with_os w o)
  end.

Definition set_volume (level : Z) : call := fun w =>
  if ANNOUNCE_ONLY w then
    ("Would set volume to " ++ str_of_int level ++ "%", w)
  else if negb ((0 <=? level)%Z && (level <=? 100)%Z) then
    ("Volume must be between 0 and 100", w)
  else if negb (volume_interface (os w)) then
    ("Error: Could not access volume control", w)
  else
    attempt (SetMasterVolumeLevelScalar level)
      ("Volume set to " ++ str_of_int level ++ "%")
      (fun e => "Error setting volume: " ++ msg e) w.

Definition mute : call := fun w =>
  if ANNOUNCE_ONLY w then ("Would mute audio", w)
  else if negb (volume_interface (os w)) then
    ("Error: Could not access volume control", w)
  else
    attempt (SetMute true) "Audio muted"
      (fun e => "Error muting: " ++ msg e) w.

Definition unmute : call := fun w =>
  if ANNOUNCE_ONLY w then ("Would unmute audio", w)
  else if negb (volume_interface (os w)) then
    ("Error: Could not access volume control", w)
  else
    attempt (SetMute false) "Audio unmuted"
      (fun e => "Error unmuting: " ++ msg e) w.

Definition shutdown_system : call := fun w =>
  if ANNOUNCE_ONLY w then ("Would shut down the system", w)
  else
    attempt (run_checked ["shutdown"; "/s"; "/t"; "0"])
      "Shutting down system"
      (fun e => match kind e with
                | CalledProcessError => "Error shutting down: " ++ msg e
                | _ => "Unexpected error during shutdown: " ++ msg e
                end) w.

Definition restart_system : call := fun w =>
  if ANNOUNCE_ONLY w then ("Would restart the system", w)
  else
    attempt (run_checked ["shutdown"; "/r"; "/t"; "0"])
      "Restarting system"
      (fun e => match kind e with
                | CalledProcessError => "Error restarting: " ++ msg e
                | _ => "Unexpected error during restart: " ++ msg e
                end) w.

Definition sleep_system : call := fun w =>
  if ANNOUNCE_ONLY w then ("Would put the system to sleep", w)
  else
    attempt
      (run_checked
         ["rundll32.exe"; "powrprof.dll,SetSuspendState"; "0"; "1"; "0"])
      "Putting system to sleep"
      (fun e => match kind e with
                | CalledProcessError => "Error sleeping system: " ++ msg e
                | _ => "Unexpected error during sleep: " ++ msg e
                end) w.

Definition open_app (app_name : string) : call := fun w =>
  if ANNOUNCE_ONLY w then ("Would open " ++ app_name, w)
  else if String.eqb app_name EmptyString then ("Invalid app name", w)
  else if contains "notepad" (lower app_name) then
    attempt (Popen "notepad.exe") "Opening notepad"
      (fun e => match kind e with
                | FileNotFoundError => "Could not find " ++ app_name
                | _ => "Error opening " ++ app_name ++ ": " ++ msg e
                end) w
  else ("I don't know how to open " ++ app_name ++ " yet", w).

Definition close_app (app_name : string) : call := fun w =>
  if ANNOUNCE_ONLY w then ("Would close " ++ app_name, w)
  else if String.eqb app_name EmptyString then ("Invalid app name", w)
  else if contains "notepad" (lower app_name) then
    match run_captured ["taskkill"; "/F"; "/IM"; "notepad.exe"] (os w) with
    | (o, inl (returncode, stderr)) =>
        if (returncode =? 0)%Z then ("Closed notepad", with_os w o)
        else if contains "not found" (lower stderr) then
          ("Notepad is not running", with_os w o)
        else ("Error closing notepad", with_os w o)
    | (o, inr e) =>
        ("Error closing " ++ app_name ++ ": " ++ msg e, with_os w o)
    end
  else ("I don't know how to close " ++ app_name ++ " yet", w).

(** The inner [for item in search_path.glob(...)] loop: every item that
    is a file is appended. *)
Definition files_of (items : list (string * bool)) : list string :=
  map fst (filter snd items).

(** The outer [for search_path in search_paths] loop of [search_file];
    [matches] is the list built so far.  The length test comes after the
    inner loop, and an exception of the inner loop skips it. *)
Fixpoint search_in (search_paths : list string) (filename : string)
    (o : OS) (matches : list string) : list string :=
  match search_paths with
  | [] => matches
  | search_path :: rest =>
      match glob search_path ("*" ++ filename ++ "*") o with
      | (items, None) =>
          let matches := (matches ++ files_of items)%list in
          if (5 <=? List.length matches)%nat then matches
          else search_in rest filename o matches
      | (items, Some _) =>
          search_in rest filename o (matches ++ files_of items)%list
      end
  end.

Definition search_file (filename : string) (w : State) : list string :=
  if String.eqb filename EmptyString then []
  else search_in (get_search_paths (os w)) filename (os w) [].

Definition open_file (filepath : string) : call := fun w =>
  if ANNOUNCE_ONLY w then ("Would open " ++ path_name filepath, w)
  else if negb (path_exists filepath (os w)) then
    ("File not found: " ++ filepath, w)
  else if negb (path_isfile filepath (os w)) then
    ("Not a file: " ++ filepath, w)
  else
    attempt (startfile filepath) ("Opening " ++ path_name filepath)
      (fun e => match kind e with
                | FileNotFoundError => "File not found: " ++ filepath
                | PermissionError => "Permission denied: " ++ filepath
                | _ => "Error opening file: " ++ msg e
                end) w.

Definition move_file (source destination : string) : call := fun w =>
  if ANNOUNCE_ONLY w then
    ("Would move " ++ path_name source ++ " to " ++ destination, w)
  else if negb (path_exists source (os w)) then
    ("Source file not found: " ++ source, w)
  else if negb (path_isfile source (os w)) then
    ("Source is not a file: " ++ source, w)
  else
    attempt (move source destination)
      ("Moved " ++ path_name source ++ " to " ++ destination)
      (fun e => match kind e with
                | FileNotFoundError => "File not found: " ++ source
                | PermissionError => "Permission denied"
                | _ => "Error moving file: " ++ msg e
                end) w.

Definition delete_file (filepath : string) : call := fun w =>
  if ANNOUNCE_ONLY w then ("Would delete " ++ path_name filepath, w)
  else if negb (path_exists filepath (os w)) then
    ("File not found: " ++ filepath, w)
  else if negb (path_isfile filepath (os w)) then
    ("Not a file: " ++ filepath, w)
  else
    attempt (remove filepath) ("Deleted " ++ path_name filepath)
      (fun e => match kind e with
                | FileNotFoundError => "File not found: " ++ filepath
                | PermissionError =>
                    "Permission denied: Cannot delete " ++ path_name filepath
                | _ => "Error deleting file: " ++ msg e
                end) w.

(** The calls of the module that act on the system. *)
Inductive mutating_call : Type :=
| SetVolume (level : Z)
| Mute
| Unmute
| ShutdownSystem
| RestartSystem
| SleepSystem
| OpenApp (app_name : string)
| CloseApp (app_name : string)
| OpenFile (filepath : string)
| MoveFile (source destination : string)
| DeleteFile (filepath : string).

Definition perform (c : mutating_call) : call :=
  match c with
  | SetVolume level => set_volume level
  | Mute => mute
  | Unmute => unmute
  | ShutdownSystem => shutdown_system
  | RestartSystem => restart_system
  | SleepSystem => sleep_system
  | OpenApp app_name => open_app app_name
  | CloseApp app_name => close_app app_name
  | OpenFile filepath => open_file filepath
  | MoveFile source destination => move_file source destination
  | DeleteFile filepath => delete_file filepath
  end.

End Module_state.

Arguments State OS : clear implicits.

End Windows.

(** ** The task store ([task_system.py]) *)

Module Tasks.
Import Py.
Local Open Scope string_scope.

(** A task, the dictionary [add_task] builds.  Time stamps are the
    strings [datetime.now().isoformat()] gives. *)
Record Task : Type := MkTask {
  id : Z;
  description : string;
  priority : string;
  completed : bool;
  created : string;
  completed_at : option string
}.

(** [==] on two such dictionaries. *)
Definition Task_eq_dec (a b : Task) : {a = b} + {a <> b}.
Proof.
  decide equality;
    try solve [ apply string_dec | apply Z.eq_dec | apply Bool.bool_dec ].
  decide equality; apply string_dec.
Defined.

(** What [json.load] finds in [TASK_FILE]: a document, with or without
    its ['tasks'] key, or something [json.load] or [data.get] raises on. *)
Inductive content : Type :=
| Json (tasks_key : option (list Task)) (last_updated : string)
| Garbage.

(** The manager ([self.tasks]) and what it reaches outside: the file,
    whether it can be written, and the clock, read by [datetime.now()].
    When the file cannot be written, [torn] tells where the write fails:
    in [json.dump], after [open(TASK_FILE, 'w')] has emptied the file, or
    in [open] itself, with the file untouched. *)
Record State : Type := MkState {
  tasks : list Task;
  TASK_FILE : option content;
  writable : bool;
  torn : bool;
  clock : nat -> string;
  tick : nat
}.

Definition with_tasks (s : State) (ts : list Task) : State :=
  {| tasks := ts; TASK_FILE := TASK_FILE s; writable := writable s;
     torn := torn s; clock := clock s; tick := tick s |}.

(** [datetime.now().isoformat()] *)
Definition now (s : State) : string * State :=
  (clock s (tick s),
   {| tasks := tasks s; TASK_FILE := TASK_FILE s; writable := writable s;
      torn := torn s; clock := clock s; tick := S (tick s) |}).

Definition load_tasks (s : State) : State :=
  match TASK_FILE s with
  | Some (Json (Some ts) _) => with_tasks s ts
  | Some (Json None _) => with_tasks s []
  | Some Garbage => with_tasks s []
  | None => with_tasks s []
  end.

(** [TaskManager()] *)
Definition init (s : State) : State := load_tasks (with_tasks s []).

(** A write that fails after the open leaves a file that is empty or
    cut short, which [json.load] refuses. *)
Definition save_tasks (s : State) : bool * State :=
  let (stamp, s) := now s in
  if writable s then
    (true,
     {| tasks := tasks s; TASK_FILE := Some (Json (Some (tasks s)) stamp);
        writable := writable s; torn := torn s; clock := clock s;
        tick := tick s |})
  else if torn s then
    (false,
     {| tasks := tasks s; TASK_FILE := Some Garbage;
        writable := writable s; torn := torn s; clock := clock s;
        tick := tick s |})
  else (false, s).

Definition add_task (description priority : string) (s : State)
    : string * State :=
  if String.eqb description EmptyString then ("Invalid task description", s)
  else
    let priority :=
      if mem priority ["low"; "normal"; "high"] then priority else "normal" in
    let (stamp, s1) := now s in
    let task :=
      {| id := Z.of_nat (List.length (tasks s)) + 1;
         description := strip description;
         priority := priority;
         completed := false;
         created := stamp;
         completed_at := None |} in
    let s2 := with_tasks s1 (tasks s1 ++ [task])%list in
    let (_, s3) := save_tasks s2 in
    ("Added task: " ++ description, s3).

(** The [for t in self.tasks: if t['id'] == task_id: ... break] loop. *)
Definition find_task (task_id : Z) (ts : list Task) : option Task :=
  find (fun t => (id t =? task_id)%Z) ts.

(** The found dictionary is the one in the list: changing it changes the
    first element with that id. *)
Fixpoint update_found (task_id : Z) (f : Task -> Task) (ts : list Task)
    : list Task :=
  match ts with
  | [] => []
  | t :: ts' =>
      if (id t =? task_id)%Z then f t :: ts'
      else t :: update_found task_id f ts'
  end.

Definition mark_completed (stamp : string) (t : Task) : Task :=
  {| id := id t; description := description t; priority := priority t;
     completed := true; created := created t; completed_at := Some stamp |}.

Definition complete_task (task_id : Z) (s : State) : string * State :=
  match find_task task_id (tasks s) with
  | None => ("Task " ++ str_of_int task_id ++ " not found", s)
  | Some task =>
      if completed task then
        ("Task " ++ str_of_int task_id ++ " is already completed", s)
      else
        let (stamp, s1) := now s in
        let s2 :=
          with_tasks s1
            (update_found task_id (mark_completed stamp) (tasks s1)) in
        let (_, s3) := save_tasks s2 in
        ("Completed task: " ++ description task, s3)
  end.

(** [self.tasks.remove(task)]: the first element equal to [task] goes. *)
Fixpoint list_remove (task : Task) (ts : list Task) : list Task :=
  match ts with
  | [] => []
  | t :: ts' =>
      if Task_eq_dec t task then ts' else t :: list_remove task ts'
  end.

Definition set_id (idx : Z) (t : Task) : Task :=
  {| id := idx; description := description t; priority := priority t;
     completed := completed t; created := created t;
     completed_at := completed_at t |}.

(** [for idx, t in enumerate(self.tasks, 1): t['id'] = idx], from the
    index [idx] on. *)
Fixpoint renumber (idx : Z) (ts : list Task) : list Task :=
  match ts with
  | [] => []
  | t :: ts' => set_id idx t :: renumber (idx + 1) ts'
  end.

Definition delete_task (task_id : Z) (s : State) : string * State :=
  match find_task task_id (tasks s) with
  | None => ("Task " ++ str_of_int task_id ++ " not found", s)
  | Some task =>
      let description := description task in
      let s1 := with_tasks s (renumber 1 (list_remove task (tasks s))) in
      let (_, s2) := save_tasks s1 in
      ("Deleted task: " ++ description, s2)
  end.

(** The operations that change the store. *)
Inductive operation : Type :=
| AddTask (description priority : string)
| CompleteTask (task_id : Z)
| DeleteTask (task_id : Z).

Definition apply (op : operation) (s : State) : string * State :=
  match op with
  | AddTask description priority => add_task description priority s
  | CompleteTask task_id => complete_task task_id s
  | DeleteTask task_id => delete_task task_id s
  end.

(** [add_task] called on each description in turn, with the priority
    given next to it. *)
Fixpoint add_all (items : list (string * string)) (s : State) : State :=
  match items with
  | [] => s
  | (description, priority) :: rest =>
      add_all rest (snd (add_task description priority s))
  end.

(** The ids of the list are 1, 2, ..., in list order. *)
Definition dense (ts : list Task) : Prop :=
  map id ts = map Z.of_nat (seq 1 (List.length ts)).

(** Loading the file gives the list that is in memory. *)
Definition synced (s : State) : Prop := tasks (load_tasks s) = tasks s.

End Tasks.

(** ** The confirmation gate and the gated branches of the main loop
       ([main.py]) *)

Module Main.
Import Py.
Local Open Scope string_scope.

(** One turn of [data = stream.read(...)] and
    [rec.AcceptWaveform(data)]. *)
Inductive audio_event : Type :=
| Silence                    (* no complete phrase yet *)
| Phrase (text : string)     (* a phrase, with the text of the result *)
| Fault                      (* the read or the recognizer raised an
                                [Exception] *)
| Interrupt.                 (* the read was left by a
                                [KeyboardInterrupt] *)

(** What has been passed to [speak], oldest first, and what the
    microphone will deliver. *)
Record IO : Type := MkIO {
  spoken : list string;
  microphone : list audio_event
}.

Definition speak (text : string) (io : IO) : IO :=
  {| spoken := (spoken io ++ [text])%list; microphone := microphone io |}.

(** The body of the loop of [get_confirmation] on a recognized text. *)
Inductive reply : Type :=
| Answer (b : bool)
| Reprompt
| Nothing.

(** [if "yes" in text or "yeah" in text or "confirm" in text:] *)
Definition says_yes (text : string) : bool :=
  contains "yes" text || contains "yeah" text || contains "confirm" text.

(** [if "no" in text or "cancel" in text or "nope" in text:] *)
Definition says_no (text : string) : bool :=
  contains "no" text || contains "cancel" text || contains "nope" text.

Definition hear (text : string) : reply :=
  let text := lower text in
  if String.eqb text EmptyString then Nothing
  else if says_yes text then Answer true
  else if says_no text then Answer false
  else Reprompt.

(** The [while True] loop; [None] when the function does not return:
    the events end with the loop still waiting, or a [KeyboardInterrupt],
    which [except Exception] does not catch, leaves the function.  The
    interrupt then stays at the head of the microphone, for the handler
    of the main loop. *)
Fixpoint listen (events : list audio_event) (said : list string)
    : option bool * IO :=
  match events with
  | [] => (None, {| spoken := said; microphone := [] |})
  | Silence :: rest => listen rest said
  | Fault :: rest => (Some false, {| spoken := said; microphone := rest |})
  | Interrupt :: rest =>
      (None, {| spoken := said; microphone := Interrupt :: rest |})
  | Phrase text :: rest =>
      match hear text with
      | Answer b => (Some b, {| spoken := said; microphone := rest |})
      | Reprompt => listen rest (said ++ ["Please say yes or no"])%list
      | Nothing => listen rest said
      end
  end.

Definition get_confirmation (prompt : string) (io : IO) : option bool * IO :=
  let io := speak prompt io in
  listen (microphone io) (spoken io).

(** An event after which the loop is still waiting. *)
Definition keeps_waiting (e : audio_event) : bool :=
  match e with
  | Silence => true
  | Phrase text =>
      match hear text with
      | Answer _ => false
      | _ => true
      end
  | Fault => false
  | Interrupt => false
  end.

(** What a call to the outside does: it works, it raises an [Exception],
    or it is left by a [KeyboardInterrupt].  For the synthesis it is
    [subprocess.run], whose [Exception] [speak] catches and prints; for
    the console it is [print]. *)
Inductive fault : Type :=
| Works
| Raises
| Interrupts.

(** How a call ends: it returns, it is still waiting when the events
    end, or a [KeyboardInterrupt] leaves it. *)
Inductive ended (A : Type) : Type :=
| Returns (a : A)
| Waits
| Propagates.

Arguments Returns {A} a.
Arguments Waits {A}.
Arguments Propagates {A}.

(** [speak] with its [try ... except Exception]; [None] when the
    interrupt leaves it. *)
Definition speak_under (voice : fault) (text : string) (io : IO)
    : option IO :=
  match voice with
  | Works => Some (speak text io)
  | Raises => Some io
  | Interrupts => None
  end.

(** The loop of [get_confirmation] when the synthesis may fail. *)
Fixpoint listen_under (voice : fault) (events : list audio_event)
    (said : list string) : ended bool * IO :=
  match events with
  | [] => (Waits, {| spoken := said; microphone := [] |})
  | Silence :: rest => listen_under voice rest said
  | Fault :: rest =>
      (Returns false, {| spoken := said; microphone := rest |})
  | Interrupt :: rest =>
      (Propagates, {| spoken := said; microphone := Interrupt :: rest |})
  | Phrase text :: rest =>
      match hear text with
      | Answer b => (Returns b, {| spoken := said; microphone := rest |})
      | Reprompt =>
          match
            speak_under voice "Please say yes or no"
              {| spoken := said; microphone := rest |}
          with
          | Some io => listen_under voice rest (spoken io)
          | None => (Propagates, {| spoken := said; microphone := rest |})
          end
      | Nothing => listen_under voice rest said
      end
  end.


Section Loop.
Context {OS : Type} `{Windows.Platform OS}.

(** The state of the program: the Windows module and the audio side. *)
Definition Session : Type := (Windows.State OS * IO)%type.

(** A branch that asks for confirmation, then acts or cancels; [None]
    when the gate is still waiting at the end of the events.  A
    [KeyboardInterrupt] in the gate leaves the branch with nothing more
    spoken or done; it is at the head of the microphone and the loop
    handles it next. *)
Definition confirmed_action (prompt cancelled : string)
    (action : Windows.State OS -> string * Windows.State OS)
    (s : Session) : option Session :=
  let (w, io) := s in
  match get_confirmation prompt io with
  | (Some true, io) =>
      let (result, w) := action w in Some (w, speak result io)
  | (Some false, io) => Some (w, speak cancelled io)
  | (None, io) =>
      match microphone io with
      | Interrupt :: _ => Some (w, io)
      | _ => None
      end
  end.

(** [elif intent == "shutdown":] *)
Definition on_shutdown : Session -> option Session :=
  confirmed_action "Are you sure you want to shut down?"
    "Shutdown cancelled" Windows.shutdown_system.

(** [elif intent == "restart":] *)
Definition on_restart : Session -> option Session :=
  confirmed_action "Are you sure you want to restart?"
    "Restart cancelled" Windows.restart_system.

(** [elif intent == "sleep":] *)
Definition on_sleep : Session -> option Session :=
  confirmed_action "Are you sure you want to sleep?"
    "Sleep cancelled" Windows.sleep_system.

(** [elif intent == "delete":] *)
Definition on_delete (target : option string) (s : Session)
    : option Session :=
  let (w, io) := s in
  match target with
  | None | Some EmptyString =>
      Some (w, speak "What file would you like me to delete?" io)
  | Some target =>
      match Windows.search_file target w with
      | [] => Some (w, speak ("Could not find file " ++ target) io)
      | first :: _ =>
          confirmed_action
            ("Are you sure you want to delete " ++ target ++ "?")
            "Delete cancelled" (Windows.delete_file first) (w, io)
      end
  end.

(** The four gated branches. *)
Inductive gated : Type :=
| Shutdown
| Restart
| Sleep
| Delete (target : option string).

Definition run_gated (g : gated) : Session -> option Session :=
  match g with
  | Shutdown => on_shutdown
  | Restart => on_restart
  | Sleep => on_sleep
  | Delete target => on_delete target
  end.




End Loop.

End Main.

(** ** The rest of the main loop ([main.py]) *)

Module MainLoop.
Import Py Main.
Local Open Scope string_scope.

(** Value of a digit. *)
Definition digit_value (c : ascii) : Z := (Z.of_nat (nat_of_ascii c) - 48)%Z.

(** The digits of a decimal literal, groups of digits with single
    underscores between them; [seen] tells that the character before was
    a digit. *)
Fixpoint int_digits (acc : Z) (seen : bool) (s : string) : option Z :=
  match s with
  | EmptyString => if seen then Some acc else None
  | String c s' =>
      if is_digit c then int_digits (10 * acc + digit_value c)%Z true s'
      else if Ascii.eqb c "_" && seen then int_digits acc false s'
      else None
  end.

(** The number of digits of a string. *)
Fixpoint digit_count (s : string) : nat :=
  match s with
  | EmptyString => O
  | String c s' => ((if is_digit c then 1 else 0) + digit_count s')%nat
  end.

(** The most digits [int] converts from a string
    ([sys.int_info.default_max_str_digits]). *)
Definition max_str_digits : nat := 4300.

(** [int(s)] for a string: blanks around, a sign, then the digits, no
    more than 4300 of them; [None] is [ValueError]. *)
Definition int (s : string) : option Z :=
  if (max_str_digits <? digit_count (strip s))%nat then None
  else
    match strip s with
    | String "+" r => int_digits 0 false r
    | String "-" r => option_map Z.opp (int_digits 0 false r)
    | r => int_digits 0 false r
    end.

(** [intent == name] *)
Definition intent_is (intent : option string) (name : string) : bool :=
  match intent with
  | Some i => String.eqb i name
  | None => false
  end.

(** [if target:] *)
Definition given (target : option string) : option string :=
  match target with
  | None | Some EmptyString => None
  | Some t => Some t
  end.

(** What the gate speaks while it goes through events: one line for
    each phrase it makes nothing of. *)
Definition reprompts (events : list audio_event) : list string :=
  flat_map
    (fun e =>
       match e with
       | Phrase text =>
           match hear text with
           | Reprompt => ["Please say yes or no"]
           | _ => []
           end
       | _ => []
       end)
    events.

(** An event the main loop passes over: nothing recognized, an empty
    text, or an exception of the read or the recognizer. *)
Definition quiet (e : audio_event) : bool :=
  match e with
  | Silence => true
  | Phrase text => String.eqb text EmptyString
  | Fault => true
  | Interrupt => false
  end.

(** The audio side after a turn of the loop: something more has been
    spoken, and events have been taken from the front of the
    microphone. *)
Definition answered (io io' : IO) : Prop :=
  (exists more, more <> [] /\ spoken io' = (spoken io ++ more)%list)
  /\ (exists used, microphone io = (used ++ microphone io')%list).

Section Dispatch.
Context {OS : Type} `{Windows.Platform OS}.

Local Abbreviation Session := (@Main.Session OS).

(** A branch that calls the Windows module and speaks what it
    returns. *)
Definition say_result (action : Windows.State OS -> string * Windows.State OS)
    (s : Session) : Session :=
  let (w, io) := s in
  let (result, w) := action w in
  (w, speak result io).

Definition say (text : string) (s : Session) : Session :=
  let (w, io) := s in (w, speak text io).

(** [elif intent == "volume":] *)
Definition on_volume (target : option string) (s : Session) : Session :=
  match given target with
  | Some target =>
      match int target with
      | Some level =>
          if (0 <=? level)%Z && (level <=? 100)%Z then
            say_result (Windows.set_volume level) s
          else say "Volume must be between 0 and 100" s
      | None => say "Please specify a valid number for volume" s
      end
  | None => say "Please specify a volume level" s
  end.

(** [elif intent == "open":] *)
Definition on_open (target : option string) (s : Session) : Session :=
  match given target with
  | Some target => say_result (Windows.open_app target) s
  | None => say "What would you like me to open?" s
  end.

(** [elif intent == "close":] *)
Definition on_close (target : option string) (s : Session) : Session :=
  match given target with
  | Some target => say_result (Windows.close_app target) s
  | None => say "What would you like me to close?" s
  end.

(** [elif intent == "search":] *)
Definition on_search (target : option string) (s : Session) : Session :=
  match given target with
  | Some target =>
      match Windows.search_file target (fst s) with
      | [] => say ("No files found matching " ++ target) s
      | matches =>
          say ("Found " ++ str_of_int (Z.of_nat (List.length matches))
                 ++ " files") s
      end
  | None => say "What file would you like me to search for?" s
  end.

(** [elif intent == "openfile":] *)
Definition on_openfile (target : option string) (s : Session) : Session :=
  match given target with
  | Some target =>
      match Windows.search_file target (fst s) with
      | [] => say ("Could not find file " ++ target) s
      | first :: _ => say_result (Windows.open_file first) s
      end
  | None => say "What file would you like me to open?" s
  end.

(** One turn of the loop that does not wait for a confirmation speaks one
    line and makes at most one call that acts on the system. *)
Inductive plain_turn (w : Windows.State OS) (io : IO)
    : Windows.State OS * IO -> Prop :=
| Only_speaks (line : string) : plain_turn w io (w, speak line io)
| Calls (c : Windows.mutating_call) :
    plain_turn w io
      (snd (Windows.perform c w), speak (fst (Windows.perform c w)) io).

(** The body of the loop on a recognized text that is not empty: the flag
    is [true] when the loop is left ([break]); [None] when a confirmation
    is still waiting at the end of the events.  A [KeyboardInterrupt]
    inside a confirmation leaves the body with the interrupt at the head
    of the microphone, where the loop reads it next. *)
Definition handle (text : string) (s : Session) : option (bool * Session) :=
  let (intent, target) := Parser.parse_command text in
  if intent_is intent "exit" then Some (true, say "Goodbye" s)
  else if intent_is intent "volume" then Some (false, on_volume target s)
  else if intent_is intent "mute" then
    Some (false, say_result Windows.mute s)
  else if intent_is intent "unmute" then
    Some (false, say_result Windows.unmute s)
  else if intent_is intent "shutdown" then
    option_map (pair false) (on_shutdown s)
  else if intent_is intent "restart" then
    option_map (pair false) (on_restart s)
  else if intent_is intent "sleep" then
    option_map (pair false) (on_sleep s)
  else if intent_is intent "open" then Some (false, on_open target s)
  else if intent_is intent "close" then Some (false, on_close target s)
  else if intent_is intent "search" then Some (false, on_search target s)
  else if intent_is intent "delete" then
    option_map (pair false) (on_delete target s)
  else if intent_is intent "openfile" then
    Some (false, on_openfile target s)
  else
    match intent with
    | None => Some (false, say ("You said " ++ text ++ ", sir") s)
    | Some _ => Some (false, s)
    end.

(** How a run of the loop over the events ends. *)
Inductive loop_end : Type :=
| Exited (s : Session)       (* [break]: after "Goodbye", or after
                                "Shutting down" on an interrupt *)
| Listening (s : Session)    (* the events are over, the loop reads on *)
| Confirming                 (* the events are over inside a confirmation *)
| OutOfFuel.

(** The [while True] loop of the program. *)
Fixpoint main_loop (fuel : nat) (s : Session) : loop_end :=
  match fuel with
  | O => OutOfFuel
  | S fuel =>
      let (w, io) := s in
      match microphone io with
      | [] => Listening s
      | Silence :: rest =>
          main_loop fuel (w, {| spoken := spoken io; microphone := rest |})
      | Fault :: rest =>
          main_loop fuel (w, {| spoken := spoken io; microphone := rest |})
      | Interrupt :: rest =>
          Exited
            (w, speak "Shutting down"
                  {| spoken := spoken io; microphone := rest |})
      | Phrase text :: rest =>
          let s := (w, {| spoken := spoken io; microphone := rest |}) in
          if String.eqb text EmptyString then main_loop fuel s
          else
            match handle text s with
            | None => Confirming
            | Some (true, s) => Exited s
            | Some (false, s) => main_loop fuel s
            end
      end
  end.

(** The loop with one turn more than there are events. *)
Definition run (s : Session) : loop_end :=
  main_loop (S (List.length (microphone (snd s)))) s.

End Dispatch.

End MainLoop.

(** ** Queries of the task store ([task_system.py]) *)

Module TaskQueries.
Import Py Tasks.
Local Open Scope string_scope.

(** [[t for t in self.tasks if not t['completed']]] *)
Definition active (ts : list Task) : list Task :=
  filter (fun t => negb (completed t)) ts.

(** One line of [list_tasks]. *)
Definition task_str (task : Task) : string :=
  let status := if completed task then "✓" else "○" in
  let priority_marker :=
    if String.eqb (priority task) "high" then "! "
    else if String.eqb (priority task) "low" then "- "
    else EmptyString in
  status ++ " [" ++ str_of_int (id task) ++ "] " ++ priority_marker
    ++ description task.

Definition list_tasks (show_completed : bool) (s : State) : list string :=
  match tasks s with
  | [] => []
  | _ =>
      let filtered := if show_completed then tasks s else active (tasks s) in
      match filtered with
      | [] => []
      | _ => map task_str filtered
      end
  end.

Definition get_task_count (include_completed : bool) (s : State) : nat :=
  if include_completed then List.length (tasks s)
  else List.length (active (tasks s)).

(** A task as the operations leave it: one of the three priorities, and
    a completion time exactly when it is completed. *)
Definition well_formed (t : Task) : Prop :=
  In (priority t) ["low"; "normal"; "high"]
  /\ (completed t = true <-> completed_at t <> None).

End TaskQueries.

(** ** Calls the Windows module turns down *)

Module WindowsChecks.
Import Py Windows.
Local Open Scope string_scope.

Section Checks.
Context {OS : Type} `{Platform OS}.

(** The tests a function makes, with the flag off, before it reaches the
    system: the range and the volume interface, the application name, the
    path. *)
Definition turned_down (c : mutating_call) (w : State OS) : bool :=
  match c with
  | SetVolume level =>
      negb ((0 <=? level)%Z && (level <=? 100)%Z)
      || negb (volume_interface (os w))
  | Mute | Unmute => negb (volume_interface (os w))
  | ShutdownSystem | RestartSystem | SleepSystem => false
  | OpenApp app_name | CloseApp app_name =>
      String.eqb app_name EmptyString
      || negb (contains "notepad" (lower app_name))
  | OpenFile filepath | DeleteFile filepath =>
      negb (path_exists filepath (os w))
      || negb (path_isfile filepath (os w))
  | MoveFile source _ =>
      negb (path_exists source (os w)) || negb (path_isfile source (os w))
  end.

End Checks.

End WindowsChecks.

(** ** Words *)

Module Words.
Import Py.

(** A word: not empty and without a blank, as [split] gives them. *)
Fixpoint has_space (s : string) : bool :=
  match s with
  | EmptyString => false
  | String c s' => is_space c || has_space s'
  end.

Definition word (w : string) : Prop :=
  w <> EmptyString /\ has_space w = false.

End Words.

(** ** The command line of [speak] ([main.py], [sydny_integrated.py]) *)

Module Speech.
Local Open Scope string_scope.

(** The single quote and the double quote. *)
Definition quote : ascii := ascii_of_nat 39.
Definition double_quote : string := String (ascii_of_nat 34) EmptyString.

(** [text.replace("'", "''")] *)
Fixpoint escape (text : string) : string :=
  match text with
  | EmptyString => EmptyString
  | String c rest =>
      if Ascii.eqb c quote then String quote (String quote (escape rest))
      else String c (escape rest)
  end.

(** The command [speak] hands to the shell. *)
Definition speak_command (text : string) : string :=
  "powershell -Command " ++ double_quote
  ++ "Add-Type -AssemblyName System.Speech; "
  ++ "$speak = New-Object System.Speech.Synthesis.SpeechSynthesizer; "
  ++ "$speak.SelectVoiceByHints('Female'); $speak.Rate = 0; "
  ++ "$speak.Speak('" ++ escape text ++ "')" ++ double_quote.

(** The text a quoted literal stands for, two quotes in a row standing
    for one; [None] when a quote stands alone, where the literal would
    end. *)
Fixpoint unescape (s : string) : option string :=
  match s with
  | EmptyString => Some EmptyString
  | String c rest =>
      if Ascii.eqb c quote then
        match rest with
        | String c' rest' =>
            if Ascii.eqb c' quote
            then option_map (String quote) (unescape rest')
            else None
        | EmptyString => None
        end
      else option_map (String c) (unescape rest)
  end.

End Speech.

(** ** A small system to run the Windows module on *)

Module Example.
Import Py.
Local Open Scope string_scope.

(** A machine with a volume, a power switch, the programs started and a
    few folders, each with the items in it: path and whether it is a
    file. *)
Record Desk : Type := MkDesk {
  level : Z;
  silent : bool;
  halted : bool;
  launched : list string;
  folders : list (string * list (string * bool))
}.

Definition all_items (d : Desk) : list (string * bool) :=
  flat_map snd (folders d).

Definition items_of (folder : string) (d : Desk) : list (string * bool) :=
  match find (fun f => String.eqb (fst f) folder) (folders d) with
  | Some f => snd f
  | None => []
  end.

(** A row of [n] nines. *)
Fixpoint nines (n : nat) : string :=
  match n with
  | O => EmptyString
  | S n' => String "9" (nines n')
  end.

(** The text between the two stars of the pattern. *)
Definition fragment (pattern : string) : string :=
  substring 1 (String.length pattern - 2) pattern.

(** The text after the last separator. *)
Fixpoint last_component (cur : string) (s : string) : string :=
  match s with
  | EmptyString => cur
  | String c s' =>
      if Ascii.eqb c "\" || Ascii.eqb c "/" then last_component EmptyString s'
      else last_component (cur ++ String c EmptyString) s'
  end.

Definition drop_item (p : string) (d : Desk) : Desk :=
  {| level := level d; silent := silent d; halted := halted d;
     launched := launched d;
     folders :=
       map (fun f => (fst f,
                      filter (fun it => negb (String.eqb (fst it) p)) (snd f)))
           (folders d) |}.

#[export] Instance desk_platform : Windows.Platform Desk := {
  volume_interface := fun _ => true;
  SetMasterVolumeLevelScalar := fun l d =>
    ({| level := l; silent := silent d; halted := halted d;
        launched := launched d; folders := folders d |}, None);
  SetMute := fun b d =>
    ({| level := level d; silent := b; halted := halted d;
        launched := launched d; folders := folders d |}, None);
  run_checked := fun _ d =>
    ({| level := level d; silent := silent d; halted := true;
        launched := launched d; folders := folders d |}, None);
  run_captured := fun _ d =>
    ({| level := level d; silent := silent d; halted := halted d;
        launched := []; folders := folders d |}, inl (0%Z, EmptyString));
  Popen := fun cmd d =>
    ({| level := level d; silent := silent d; halted := halted d;
        launched := cmd :: launched d; folders := folders d |}, None);
  path_exists := fun p d => existsb (fun it => String.eqb (fst it) p) (all_items d);
  path_isfile := fun p d =>
    existsb (fun it => String.eqb (fst it) p && snd it) (all_items d);
  startfile := fun p d =>
    ({| level := level d; silent := silent d; halted := halted d;
        launched := p :: launched d; folders := folders d |}, None);
  move := fun src dst d => (drop_item src d, None);
  remove := fun p d => (drop_item p d, None);
  path_name := last_component EmptyString;
  get_search_paths := fun d => map fst (folders d);
  glob := fun folder pattern d =>
    (filter (fun it => contains (fragment pattern) (last_component EmptyString (fst it)))
            (items_of folder d), None)
}.

(** A desktop with six reports on it, and a documents folder. *)
Definition desk : Desk :=
  {| level := 30; silent := false; halted := false; launched := [];
     folders :=
       [ ("C:\Users\sam\Desktop",
          [ ("C:\Users\sam\Desktop\report1.txt", true);
            ("C:\Users\sam\Desktop\report2.txt", true);
            ("C:\Users\sam\Desktop\report3.txt", true);
            ("C:\Users\sam\Desktop\report4.txt", true);
            ("C:\Users\sam\Desktop\report5.txt", true);
            ("C:\Users\sam\Desktop\report6.txt", true);
            ("C:\Users\sam\Desktop\reports", false) ]);
         ("C:\Users\sam\Documents",
          [ ("C:\Users\sam\Documents\report7.txt", true) ]) ] |}.

Definition safe : Windows.State Desk :=
  {| Windows.ANNOUNCE_ONLY := true; Windows.os := desk |}.

Definition live : Windows.State Desk :=
  {| Windows.ANNOUNCE_ONLY := false; Windows.os := desk |}.

(** A store with nothing on disk, and a clock. *)
Definition fresh : Tasks.State :=
  {| Tasks.tasks := []; Tasks.TASK_FILE := None; Tasks.writable := true;
     Tasks.torn := false;
     Tasks.clock := fun n => "2025-01-01T00:00:0" ++ str_of_int (Z.of_nat n);
     Tasks.tick := 0 |}.

(** The store after two calls of [add_task]. *)
Definition two_tasks : Tasks.State :=
  Tasks.add_all [("  Buy milk ", "high"); ("Call mom", "urgent")]
    (Tasks.init fresh).

End Example.

(** * Properties *)

(** ** Text primitives *)

Section Text_facts.
Import Py.

Lemma mem_In (x : string) (l : list string) : mem x l = true <-> In x l.
Proof.
  unfold mem. rewrite existsb_exists. split.
  - intros (y & Hy & E). apply String.eqb_eq in E. now subst.
  - intros Hx. exists x. split; [assumption | apply String.eqb_refl].
Qed.

Lemma mem_false (x : string) (l : list string) :
  mem x l = false <-> ~ In x l.
Proof.
  rewrite <- mem_In. destruct (mem x l); split; congruence.
Qed.

Lemma In_without (ks l : list string) (x : string) :
  In x (without ks l) <-> In x l /\ ~ In x ks.
Proof.
  unfold without. rewrite filter_In, negb_true_iff, mem_false. tauto.
Qed.

Lemma list_remove_keeps (x y : string) (l : list string) :
  In y l -> y <> x -> In y (list_remove x l).
Proof.
  induction l as [|z l IH]; simpl; [tauto|].
  intros [-> | Hy] Hne.
  - destruct (String.eqb_spec x y) as [E | _]; [congruence | now left].
  - destruct (String.eqb x z); [assumption | right; auto].
Qed.

Lemma list_remove_incl (x : string) (l : list string) :
  incl (list_remove x l) l.
Proof.
  induction l as [|z l IH]; simpl; [apply incl_refl|].
  destruct (String.eqb x z).
  - apply incl_tl, incl_refl.
  - apply incl_cons; [now left | now apply incl_tl].
Qed.

Lemma list_remove_nil (x : string) (l : list string) :
  In x l -> list_remove x l = [] -> l = [x].
Proof.
  destruct l as [|z l]; simpl; [tauto|].
  destruct (String.eqb_spec x z) as [-> | Hne].
  - now intros _ ->.
  - discriminate.
Qed.

Lemma truthy_In {A : Type} (x : A) (l : list A) : In x l -> truthy l = true.
Proof. destruct l; simpl; [tauto | reflexivity]. Qed.

Lemma truthy_false {A : Type} (l : list A) : truthy l = false <-> l = [].
Proof. destruct l; simpl; split; congruence. Qed.

(** No word of a split text is empty. *)
Lemma flush_nonempty (cur : string) :
  Forall (fun w => w <> EmptyString) (flush cur).
Proof.
  destruct cur; simpl; constructor; [discriminate | constructor].
Qed.

Lemma split_from_nonempty (s cur : string) :
  Forall (fun w => w <> EmptyString) (split_from cur s).
Proof.
  revert cur. induction s as [|c s IH]; intros cur; simpl.
  - apply flush_nonempty.
  - destruct (is_space c).
    + apply Forall_app. split; [apply flush_nonempty | apply IH].
    + apply IH.
Qed.

Lemma split_nonempty (s : string) :
  Forall (fun w => w <> EmptyString) (split s).
Proof. apply split_from_nonempty. Qed.

Lemma join_nonempty (sep : string) (l : list string) :
  l <> [] -> Forall (fun w => w <> EmptyString) l ->
  join sep l <> EmptyString.
Proof.
  unfold join. destruct l as [|w l]; [congruence|].
  intros _ Hall. inversion Hall as [|? ? Hw _]; subst.
  destruct w as [|c w]; [congruence|].
  destruct l; simpl; discriminate.
Qed.

End Text_facts.

(** ** The parser *)

Section Parser_facts.
Import Py Parser.

Lemma strip_fillers_nonempty (text : string) :
  Forall (fun w => w <> EmptyString) (strip_fillers text).
Proof.
  unfold strip_fillers, without.
  apply Forall_forall. intros w Hw. apply filter_In in Hw.
  destruct Hw as [Hw _].
  exact (proj1 (Forall_forall _ _) (split_nonempty _) w Hw).
Qed.

(** The five rules with a target come down to the first one whose guard
    holds: it returns when its extraction leaves something, and leaves
    the empty list to every later rule when it does not. *)
Lemma target_rules_eq (cw : list string) :
  target_rules cw =
    match first_entered target_table cw with
    | None => (None, cw)
    | Some (i, _, e) =>
        if truthy (e cw) then (Some (Some i, Some (join " " (e cw))), e cw)
        else (None, [])
    end.
Proof.
  unfold target_rules, orelse, rule_openfile, rule_open, rule_close,
    rule_search, rule_delete, target_rule.
  cbn [first_entered target_table].
  repeat match goal with
         | |- context [if ?g cw then _ else _] =>
             destruct (g cw); [ | ]
         | |- context [truthy (?e cw)] =>
             let E := fresh "E" in
             destruct (e cw) eqn:E; [ reflexivity | reflexivity ]
         end.
  reflexivity.
Qed.

Lemma first_entered_In (table : list entry) (cw : list string) i g e :
  first_entered table cw = Some (i, g, e) ->
  In (i, g, e) table /\ g cw = true.
Proof.
  induction table as [|[[i' g'] e'] table IH]; simpl; [discriminate|].
  destruct (g' cw) eqn:G.
  - intros E. inversion E; subst. split; [now left | assumption].
  - intros E. destruct (IH E). split; [now right | assumption].
Qed.

(** An extraction only drops words. *)
Lemma extract_incl (cw : list string) i g e :
  In (i, g, e) target_table -> incl (e cw) cw.
Proof.
  simpl. intros Hin.
  repeat destruct Hin as [Hin | Hin]; inversion Hin; subst;
    try apply list_remove_incl;
    intros w Hw; apply In_without in Hw; tauto.
Qed.

(** It drops none but the keywords of its rule. *)
Lemma extract_keeps (cw : list string) (w : string) i g e :
  In (i, g, e) target_table ->
  ~ In w ["open"; "file"; "close"; "search"; "find"; "delete"] ->
  In w cw -> In w (e cw).
Proof.
  simpl. intros Hin Hw Hcw.
  repeat destruct Hin as [Hin | Hin]; inversion Hin; subst;
    solve [ apply list_remove_keeps; [assumption | intros ->; tauto]
          | apply In_without; split; [assumption | simpl; tauto] ].
Qed.

Lemma parse_words_returned (cw cw' : list string) (res : result) :
  target_rules cw = (Some res, cw') -> parse_words cw = res.
Proof.
  intros E. unfold parse_words, cascade, orelse. now rewrite E.
Qed.

Lemma parse_words_emptied (cw : list string) :
  target_rules cw = (None, []) -> parse_words cw = (None, None).
Proof.
  intros E. unfold parse_words, cascade. unfold orelse at 1.
  now rewrite E.
Qed.

Lemma parse_words_later (cw : list string) :
  target_rules cw = (None, cw) ->
  parse_words cw =
    match fst (later_rules cw) with
    | Some res => res
    | None => (None, None)
    end.
Proof.
  intros E. unfold parse_words, cascade. unfold orelse at 1.
  now rewrite E.
Qed.

(** The intents of the rules after the first five. *)
Lemma later_rules_intent (cw cw' : list string) (i t : option string) :
  later_rules cw = (Some (i, t), cw') ->
  In i [Some "volume"; Some "mute"; Some "unmute"; Some "shutdown";
        Some "restart"; Some "sleep"; Some "exit"].
Proof.
  unfold later_rules, orelse, rule_volume, rule_keyword.
  repeat match goal with
         | |- context [if ?b then _ else _] => destruct b
         end;
    intros E; inversion E; subst; simpl; tauto.
Qed.

Lemma without_nil (ks l : list string) :
  without ks l = [] -> forall w, In w l -> In w ks.
Proof.
  intros E w Hw.
  destruct (mem w ks) eqn:M; [now apply mem_In|].
  assert (Hin : In w (without ks l)).
  { apply In_without. split; [assumption | now apply mem_false]. }
  rewrite E in Hin. destruct Hin.
Qed.

(** [find] gives the first element that passes the test. *)
Lemma find_first {A : Type} (p : A -> bool) (l : list A) (x : A) :
  find p l = Some x ->
  exists before after,
    l = before ++ x :: after /\ p x = true /\
    Forall (fun y => p y = false) before.
Proof.
  induction l as [|y l IH]; simpl; [discriminate|].
  destruct (p y) eqn:Py.
  - intros E. inversion E; subst. exists [], l. repeat split; auto.
  - intros E. destruct (IH E) as (before & after & -> & Px & Hb).
    exists (y :: before), after. repeat split; auto.
Qed.

Lemma find_nothing {A : Type} (p : A -> bool) (l : list A) :
  find p l = None -> Forall (fun y => p y = false) l.
Proof.
  induction l as [|y l IH]; simpl; [constructor|].
  destruct (p y) eqn:Py; [discriminate|]. intros E. constructor; auto.
Qed.

(** C3. When the cleaned words of an utterance hold both "open" and
    "file" and at least one more word, [parse_command] returns the intent
    "openfile" with, as target, the words other than "open" and "file" in
    their order, joined by single spaces; it does not return "open". *)
Theorem openfile_before_open (text : string) :
  let toks := strip_fillers text in
  In "open" toks -> In "file" toks ->
  (exists w, In w toks /\ w <> "open" /\ w <> "file") ->
  parse_command text =
    (Some "openfile", Some (join " " (without ["open"; "file"] toks)))
  /\ fst (parse_command text) <> Some "open".
Proof.
  intros toks Hopen Hfile (w & Hw & Hwo & Hwf).
  assert (R : parse_command text =
    (Some "openfile", Some (join " " (without ["open"; "file"] toks)))).
  { unfold parse_command. fold toks.
    apply parse_words_returned with (cw' := extract_openfile toks).
    rewrite target_rules_eq. cbn [first_entered target_table].
    unfold guard_openfile.
    rewrite (proj2 (mem_In _ _) Hopen), (proj2 (mem_In _ _) Hfile).
    cbn [andb].
    rewrite (truthy_In w).
    - reflexivity.
    - apply In_without. split; [assumption|]. simpl. intuition congruence. }
  split; [exact R|]. rewrite R. simpl. discriminate.
Qed.

Lemma openfile_before_open_witness :
  parse_command "Open the FILE budget  report" =
    (Some "openfile", Some "budget report")
  /\ fst (parse_command "Open the FILE budget  report") <> Some "open".
Proof.
  apply (openfile_before_open "Open the FILE budget  report").
  - vm_compute. left. reflexivity.
  - vm_compute. right. left. reflexivity.
  - exists "budget". vm_compute.
    repeat split; try discriminate. right. right. left. reflexivity.
Defined.

(** C7. When the cleaned words hold "volume" and none of the five rules
    before the volume rule returns, [parse_command] takes the first
    "volume" out and returns the intent "volume" with the first of the
    remaining words that is all digits, or with [None] when no remaining
    word is; "set volume to 50" gives ("volume", "50") and "volume" alone
    gives ("volume", None). *)
Theorem volume_rule :
  (forall text : string,
      let toks := strip_fillers text in
      In "volume" toks -> fst (target_rules toks) = None ->
      let remaining := list_remove "volume" toks in
      parse_command text = (Some "volume", find isdigit remaining)
      /\ match find isdigit remaining with
         | Some d =>
             exists before after,
               remaining = before ++ d :: after /\ isdigit d = true /\
               Forall (fun w => isdigit w = false) before
         | None => Forall (fun w => isdigit w = false) remaining
         end)
  /\ parse_command "set volume to 50" = (Some "volume", Some "50")
  /\ parse_command "volume" = (Some "volume", None).
Proof.
  split; [|split; reflexivity].
  intros text toks Hvol Hnone remaining. split.
  - unfold parse_command. fold toks.
    assert (E : target_rules toks = (None, toks)).
    { rewrite target_rules_eq in Hnone |- *.
      destruct (first_entered target_table toks) as [[[i g] e]|] eqn:F;
        [|reflexivity].
      apply first_entered_In in F. destruct F as [Hin _].
      rewrite (truthy_In "volume") in Hnone; [discriminate|].
      apply (extract_keeps toks "volume" i g e Hin); [|assumption].
      simpl. intuition discriminate. }
    rewrite (parse_words_later _ E).
    unfold later_rules. unfold orelse at 1. unfold rule_volume.
    rewrite (proj2 (mem_In _ _) Hvol). reflexivity.
  - destruct (find isdigit remaining) as [d|] eqn:F.
    + now apply find_first.
    + now apply find_nothing.
Qed.

Lemma volume_rule_witness :
  parse_command "please set the volume to 50 now" =
    (Some "volume", Some "50").
Proof.
  refine (let H := proj1 volume_rule "please set the volume to 50 now" _ _
          in proj1 H).
  - vm_compute. right. left. reflexivity.
  - vm_compute. reflexivity.
Defined.

(** C8. A rule with a target that is entered and whose extraction leaves
    no word does not return its intent: the later rules run, on the empty
    list, and [parse_command] returns (None, None).  So does every
    utterance whose cleaned words are the single word "open", such as
    "open" and "please open". *)
Theorem empty_remainder_falls_through :
  (forall (text : string) i g e,
      let toks := strip_fillers text in
      In (i, g, e) target_table -> g toks = true -> e toks = [] ->
      parse_command text = (None, None))
  /\ (forall text : string,
        strip_fillers text = ["open"] -> parse_command text = (None, None))
  /\ parse_command "open" = (None, None)
  /\ parse_command "please open" = (None, None).
Proof.
  split; [|split; [|split; reflexivity]].
  - intros text i g e toks Hin G E.
    unfold parse_command. fold toks.
    simpl in Hin.
    destruct Hin as [Hin | [Hin | [Hin | [Hin | [Hin | []]]]]];
      inversion Hin; subst i g e; clear Hin.
    + apply parse_words_emptied. rewrite target_rules_eq.
      cbn [first_entered target_table]. now rewrite G, E.
    + apply mem_In in G.
      now rewrite (list_remove_nil "open" toks G E).
    + apply mem_In in G.
      now rewrite (list_remove_nil "close" toks G E).
    + pose proof (without_nil _ _ E) as Hk.
      assert (Ho : mem "open" toks = false).
      { apply mem_false. intros Hc. apply Hk in Hc. simpl in Hc.
        intuition discriminate. }
      assert (Hc : mem "close" toks = false).
      { apply mem_false. intros Hc. apply Hk in Hc. simpl in Hc.
        intuition discriminate. }
      apply parse_words_emptied. rewrite target_rules_eq.
      cbn [first_entered target_table].
      unfold guard_openfile, guard_open, guard_close.
      rewrite Ho, Hc, andb_false_r. now rewrite G, E.
    + pose proof (without_nil _ _ E) as Hk.
      assert (Hno : forall k, In k ["open"; "close"; "search"; "find"] ->
                              mem k toks = false).
      { intros k Hkin. apply mem_false. intros Hc. apply Hk in Hc.
        simpl in Hkin, Hc. intuition (subst; discriminate). }
      apply parse_words_emptied. rewrite target_rules_eq.
      cbn [first_entered target_table].
      unfold guard_openfile, guard_open, guard_close, guard_search.
      rewrite (Hno "open"), (Hno "close"), (Hno "search"), (Hno "find"),
        andb_false_r by (simpl; tauto).
      cbn [orb]. now rewrite G, E.
  - intros text E. unfold parse_command. now rewrite E.
Qed.

Lemma empty_remainder_falls_through_witness :
  parse_command "could you please search for the file" = (None, None).
Proof.
  apply (proj1 empty_remainder_falls_through
           "could you please search for the file"
           "search" guard_search extract_search).
  - simpl. right. right. right. left. reflexivity.
  - vm_compute. reflexivity.
  - vm_compute. reflexivity.
Defined.

(** C9. Whenever [parse_command] returns one of the intents "open",
    "close", "openfile", "search" and "delete", the target that comes
    with it is a string and is not empty. *)
Theorem target_intents_have_target (text : string) (i : string)
    (t : option string) :
  parse_command text = (Some i, t) ->
  In i ["open"; "close"; "openfile"; "search"; "delete"] ->
  exists s, t = Some s /\ s <> EmptyString.
Proof.
  unfold parse_command. set (toks := strip_fillers text).
  intros R Hi.
  pose proof (target_rules_eq toks) as T.
  destruct (first_entered target_table toks) as [[[i' g'] e']|] eqn:F.
  - apply first_entered_In in F. destruct F as [Hin _].
    destruct (truthy (e' toks)) eqn:Tr.
    + rewrite (parse_words_returned _ _ _ T) in R.
      inversion R; subst. eexists. split; [reflexivity|].
      apply join_nonempty.
      * destruct (e' toks); [discriminate | discriminate].
      * apply Forall_forall. intros w Hw.
        apply (extract_incl toks _ _ _ Hin) in Hw.
        exact (proj1 (Forall_forall _ _) (strip_fillers_nonempty text) w Hw).
    + rewrite (parse_words_emptied _ T) in R. discriminate.
  - rewrite (parse_words_later _ T) in R.
    destruct (later_rules toks) as [[[i0 t0]|] cw'] eqn:L;
      simpl in R; [|discriminate].
    inversion R; subst.
    apply later_rules_intent in L.
    simpl in L, Hi. intuition congruence.
Qed.

Lemma target_intents_have_target_witness :
  exists s, Some "notes" = Some s /\ s <> EmptyString.
Proof.
  apply (target_intents_have_target "Delete file my notes" "delete").
  - vm_compute. reflexivity.
  - simpl. tauto.
Defined.

End Parser_facts.

(** ** The Windows module *)

Section Windows_facts.
Import Py Windows Example.
Local Open Scope string_scope.



(** C4. [search_file] tests the number of matches only after a folder
    has been gone through: with six matching files in the first folder it
    returns the six of them. *)
Theorem search_file_returns_six :
  search_file "report" Example.live =
    [ "C:\Users\sam\Desktop\report1.txt";
      "C:\Users\sam\Desktop\report2.txt";
      "C:\Users\sam\Desktop\report3.txt";
      "C:\Users\sam\Desktop\report4.txt";
      "C:\Users\sam\Desktop\report5.txt";
      "C:\Users\sam\Desktop\report6.txt" ]
  /\ (5 < List.length (search_file "report" Example.live))%nat.
Proof.
  split; [reflexivity | vm_compute; lia].
Qed.

End Windows_facts.

(** ** The task store *)

Section Tasks_facts.
Import Py Tasks.
Local Open Scope string_scope.
Local Open Scope list_scope.

Lemma tasks_save (s : State) : tasks (snd (save_tasks s)) = tasks s.
Proof.
  unfold save_tasks, now. simpl.
  destruct (writable s); [reflexivity|]. now destruct (torn s).
Qed.

Lemma ids_append (ts : list Task) (t : Task) :
  dense ts -> id t = (Z.of_nat (List.length ts) + 1)%Z ->
  dense (ts ++ [t]).
Proof.
  unfold dense. intros D E.
  rewrite map_app, D, length_app, Nat.add_comm. simpl List.length.
  rewrite seq_S, map_app. simpl. rewrite E. do 2 f_equal. lia.
Qed.

Lemma ids_update_found (task_id : Z) (f : Task -> Task) (ts : list Task) :
  (forall t, id (f t) = id t) ->
  map id (update_found task_id f ts) = map id ts
  /\ List.length (update_found task_id f ts) = List.length ts.
Proof.
  intros Hf. induction ts as [|t ts [IH1 IH2]]; simpl; [tauto|].
  destruct (id t =? task_id)%Z; simpl.
  - now rewrite Hf.
  - now rewrite IH1, IH2.
Qed.

Lemma ids_renumber (k : nat) (ts : list Task) :
  map id (renumber (Z.of_nat k) ts) = map Z.of_nat (seq k (List.length ts))
  /\ List.length (renumber (Z.of_nat k) ts) = List.length ts.
Proof.
  revert k. induction ts as [|t ts IH]; intros k; simpl; [tauto|].
  replace (Z.of_nat k + 1)%Z with (Z.of_nat (S k)) by lia.
  destruct (IH (S k)) as [IH1 IH2]. now rewrite IH1, IH2.
Qed.

Lemma find_task_In (task_id : Z) (ts : list Task) (t : Task) :
  find_task task_id ts = Some t -> In t ts /\ id t = task_id.
Proof.
  unfold find_task. intros F. apply find_some in F.
  destruct F as [Hin E]. split; [assumption | now apply Z.eqb_eq].
Qed.

Lemma find_task_found (task_id : Z) (ts : list Task) :
  In task_id (map id ts) -> exists t, find_task task_id ts = Some t.
Proof.
  unfold find_task. induction ts as [|t ts IH]; simpl; [tauto|].
  intros [E | Hin].
  - rewrite E, Z.eqb_refl. now exists t.
  - destruct (id t =? task_id)%Z; [now exists t | auto].
Qed.

Lemma length_list_remove (t : Task) (ts : list Task) :
  In t ts -> List.length (list_remove t ts) = (List.length ts - 1)%nat.
Proof.
  induction ts as [|u ts IH]; simpl; [tauto|].
  destruct (Task_eq_dec u t) as [-> | Hne].
  - intros _. lia.
  - intros [E | Hin]; [congruence|]. simpl. rewrite (IH Hin).
    destruct ts; [destruct Hin | simpl; lia].
Qed.

(** [remove] takes away the very task the loop found: no task before
    it in the list is equal to it. *)
Lemma list_remove_found (task_id : Z) (ts : list Task) (t : Task) :
  find_task task_id ts = Some t ->
  exists before after,
    ts = before ++ t :: after /\ list_remove t ts = before ++ after
    /\ Forall (fun u => id u <> task_id) before.
Proof.
  unfold find_task. induction ts as [|u ts IH]; simpl; [discriminate|].
  destruct (id u =? task_id)%Z eqn:E.
  - intros F. inversion F; subst u. exists [], ts.
    destruct (Task_eq_dec t t); [|congruence]. repeat split; constructor.
  - intros F. destruct (IH F) as (before & after & -> & R & Hb).
    apply Z.eqb_neq in E.
    assert (Ht : id t = task_id).
    { apply find_some in F. now apply Z.eqb_eq. }
    exists (u :: before), after.
    destruct (Task_eq_dec u t) as [-> | _]; [congruence|].
    rewrite R. repeat split. constructor; assumption.
Qed.

Lemma delete_task_ids (task_id : Z) (s : State) (t : Task) :
  find_task task_id (tasks s) = Some t ->
  map id (tasks (snd (delete_task task_id s))) =
    map Z.of_nat (seq 1 (List.length (tasks s) - 1))
  /\ List.length (tasks (snd (delete_task task_id s))) =
       (List.length (tasks s) - 1)%nat.
Proof.
  intros F. unfold delete_task. rewrite F.
  destruct (save_tasks _) as [ok s2] eqn:S.
  assert (T : tasks s2 = renumber 1 (list_remove t (tasks s))).
  { change s2 with (snd (ok, s2)). rewrite <- S, tasks_save. reflexivity. }
  simpl. rewrite T.
  destruct (ids_renumber 1 (list_remove t (tasks s))) as [I L].
  change (Z.of_nat 1) with 1%Z in I, L.
  rewrite I, L, length_list_remove; [tauto|].
  now apply find_task_In in F.
Qed.

(** C5. When the ids of the list are 1..N in list order, they are still
    1..N' in list order after [add_task], [complete_task] and
    [delete_task], N' being the new length; and deleting a task that is
    in the list leaves N-1 tasks, numbered 1..N-1. *)
Theorem ids_stay_dense (s : State) :
  dense (tasks s) ->
  (forall op, dense (tasks (snd (apply op s))))
  /\ (forall task_id,
        In task_id (map id (tasks s)) ->
        let s' := snd (delete_task task_id s) in
        List.length (tasks s') = (List.length (tasks s) - 1)%nat
        /\ map id (tasks s') =
             map Z.of_nat (seq 1 (List.length (tasks s) - 1))).
Proof.
  intros D. split.
  - intros [description priority | task_id | task_id]; cbn [apply].
    + unfold add_task.
      destruct (String.eqb description EmptyString); [exact D|].
      cbv zeta. unfold now at 1. cbv iota beta.
      match goal with
      | |- context [save_tasks ?x] =>
          destruct (save_tasks x) as [ok s3] eqn:S;
          assert (T : tasks s3 = tasks x)
            by (change s3 with (snd (ok, s3)); rewrite <- S;
                apply tasks_save)
      end.
      simpl. rewrite T. simpl. now apply ids_append.
    + unfold complete_task.
      destruct (find_task task_id (tasks s)) as [t|]; [|exact D].
      destruct (completed t); [exact D|].
      unfold now at 1. cbv iota beta zeta.
      match goal with
      | |- context [save_tasks ?x] =>
          destruct (save_tasks x) as [ok s3] eqn:S;
          assert (T : tasks s3 = tasks x)
            by (change s3 with (snd (ok, s3)); rewrite <- S;
                apply tasks_save)
      end.
      simpl. rewrite T. simpl. unfold dense.
      destruct (ids_update_found task_id
                  (mark_completed (clock s (tick s))) (tasks s)) as [I L];
        [reflexivity|].
      rewrite I, L. exact D.
    + destruct (find_task task_id (tasks s)) as [t|] eqn:F.
      * destruct (delete_task_ids task_id s t F) as [I L].
        unfold dense. now rewrite I, L.
      * unfold delete_task. rewrite F. exact D.
  - intros task_id Hin s'.
    destruct (find_task_found task_id (tasks s) Hin) as [t F].
    destruct (delete_task_ids task_id s t F) as [I L]. now split.
Qed.

Lemma ids_stay_dense_witness :
  dense (tasks (snd (apply (DeleteTask 1) Example.two_tasks)))
  /\ map id (tasks (snd (delete_task 2 Example.two_tasks))) = [1%Z].
Proof.
  assert (D : dense (tasks Example.two_tasks)) by reflexivity.
  split.
  - exact (proj1 (ids_stay_dense Example.two_tasks D) (DeleteTask 1)).
  - refine (proj2 (proj2 (ids_stay_dense Example.two_tasks D) 2%Z _)).
    vm_compute. right. left. reflexivity.
Defined.

Lemma init_synced (s : State) : synced (init s).
Proof.
  unfold synced, init, load_tasks. cbn [TASK_FILE with_tasks].
  destruct (TASK_FILE s) as [[[ts|] stamp|]|] eqn:E;
    cbn [TASK_FILE with_tasks]; rewrite E; reflexivity.
Qed.

Lemma init_writable (s : State) : writable (init s) = writable s.
Proof.
  unfold init, load_tasks. cbn [TASK_FILE with_tasks].
  destruct (TASK_FILE s) as [[[ts|] stamp|]|]; reflexivity.
Qed.

(** A valid [add_task] on a disk that takes the write: the new task goes
    last, with the stripped description, and the file holds the new
    list. *)
Lemma add_task_valid (description priority : string) (s : State) :
  writable s = true -> description <> EmptyString ->
  let s' := snd (add_task description priority s) in
  writable s' = true /\ synced s'
  /\ exists t,
       tasks s' = tasks s ++ [t]
       /\ Tasks.description t = strip description
       /\ id t = (Z.of_nat (List.length (tasks s)) + 1)%Z
       /\ completed t = false /\ completed_at t = None.
Proof.
  intros W Hd. unfold add_task.
  destruct (String.eqb_spec description EmptyString) as [E | _];
    [contradiction|].
  unfold save_tasks, now, synced, load_tasks. simpl. rewrite W. simpl.
  repeat split. eexists. repeat split.
Qed.

Lemma add_all_valid (items : list (string * string)) (s : State) :
  writable s = true -> synced s ->
  Forall (fun it => fst it <> EmptyString) items ->
  let s' := add_all items s in
  writable s' = true /\ synced s'
  /\ exists added,
       tasks s' = tasks s ++ added
       /\ map Tasks.description added = map (fun it => strip (fst it)) items.
Proof.
  revert s. induction items as [|[description priority] items IH];
    intros s W Sy Hall; simpl.
  - repeat split; try assumption. exists []. now rewrite app_nil_r.
  - inversion Hall as [|? ? Hd Hrest]; subst. simpl in Hd.
    destruct (add_task_valid description priority s W Hd)
      as (W1 & Sy1 & t & T1 & D1 & _).
    destruct (IH _ W1 Sy1 Hrest) as (W2 & Sy2 & added & T2 & D2).
    repeat split; try assumption.
    exists (t :: added). rewrite T2, T1, <- app_assoc. simpl.
    now rewrite D1, D2.
Qed.

(** What [load_tasks] gives does not depend on the list in memory: it is
    read from the file. *)
Lemma load_tasks_reads_file (s : State) (stale : list Task) :
  tasks (load_tasks (with_tasks s stale)) = tasks (load_tasks s).
Proof.
  unfold load_tasks. cbn [TASK_FILE with_tasks].
  destruct (TASK_FILE s) as [[[ts|] stamp|]|]; reflexivity.
Qed.

(** C6. On a disk that takes the writes, after a manager is created and
    [add_task] is called with N descriptions, none of them empty, the
    store holds the tasks that were there and then the N new ones, with
    the stripped descriptions, in the order given, and the file holds
    that list, task for task and field for field: [load_tasks] gives it
    back whatever list is in memory when it is called, and so does a new
    manager created on the file. *)
Theorem add_then_reload (s : State) (items : list (string * string)) :
  writable s = true ->
  Forall (fun it => fst it <> EmptyString) items ->
  let s0 := init s in
  let s1 := add_all items s0 in
  (forall stale, tasks (load_tasks (with_tasks s1 stale)) = tasks s1)
  /\ tasks (init s1) = tasks s1
  /\ exists added,
       tasks s1 = tasks s0 ++ added
       /\ List.length added = List.length items
       /\ map Tasks.description added = map (fun it => strip (fst it)) items.
Proof.
  intros W Hall s0 s1.
  assert (W0 : writable s0 = true) by (unfold s0; now rewrite init_writable).
  destruct (add_all_valid items s0 W0 (init_synced s) Hall)
    as (_ & Sy & added & T & D).
  fold s1 in Sy, T. unfold synced in Sy.
  split; [|split].
  - intros stale. now rewrite load_tasks_reads_file.
  - unfold init. now rewrite load_tasks_reads_file.
  - exists added. repeat split; try assumption.
    rewrite <- (length_map Tasks.description added), D. apply length_map.
Qed.

Lemma add_then_reload_witness :
  (forall stale,
     tasks (load_tasks (with_tasks Example.two_tasks stale))
     = tasks Example.two_tasks)
  /\ tasks (init Example.two_tasks) = tasks Example.two_tasks.
Proof.
  pose proof (add_then_reload Example.fresh
                [("  Buy milk ", "high"); ("Call mom", "urgent")]
                eq_refl) as R.
  cbv zeta in R. split; apply R; repeat constructor; simpl; discriminate.
Defined.

End Tasks_facts.

(** ** The confirmation gate *)

Section Gate_facts.
Import Py Main Example.
Local Open Scope string_scope.
Local Open Scope list_scope.

(** C1. The gate on two utterances that have none of the six words among
    their cleaned words.  The code looks for the words inside the lowered
    text: "i know" resolves the gate to false, with no second prompt,
    because "no" stands inside "know"; "eyes" resolves it to true,
    because "yes" stands inside "eyes".  By the claim both are answered
    with "Please say yes or no" and leave the gate waiting. *)
Theorem gate_takes_other_words_for_answers :
  ((forall k, In k ["yes"; "yeah"; "confirm"; "no"; "cancel"; "nope"] ->
              ~ In k (Parser.strip_fillers "i know"))
   /\ get_confirmation "Are you sure you want to shut down?"
        {| spoken := []; microphone := [Phrase "i know"] |}
      = (Some false,
         {| spoken := ["Are you sure you want to shut down?"];
            microphone := [] |}))
  /\ ((forall k, In k ["yes"; "yeah"; "confirm"; "no"; "cancel"; "nope"] ->
                 ~ In k (Parser.strip_fillers "eyes"))
      /\ get_confirmation "Are you sure you want to shut down?"
           {| spoken := []; microphone := [Phrase "eyes"] |}
         = (Some true,
            {| spoken := ["Are you sure you want to shut down?"];
               microphone := [] |})).
Proof.
  split; split.
  - intros k Hk Hin. vm_compute in Hin. simpl in Hk.
    intuition (subst; discriminate).
  - reflexivity.
  - intros k Hk Hin. vm_compute in Hin. simpl in Hk.
    intuition (subst; discriminate).
  - reflexivity.
Qed.












(** With a working synthesis the two gates are one: [None] with the
    interrupt at the head of the microphone is the interrupt that leaves
    the function, [None] with nothing left is the wait. *)
Lemma listen_under_works (events : list audio_event) (said : list string) :
  listen_under Works events said
  = (match listen events said with
     | (Some b, _) => Returns b
     | (None, io) =>
         match microphone io with
         | Interrupt :: _ => Propagates
         | _ => Waits
         end
     end,
     snd (listen events said)).
Proof.
  revert said. induction events as [|e events IH]; intros said;
    [reflexivity|].
  destruct e as [|text| |]; cbn [listen listen_under];
    try reflexivity; try apply IH.
  destruct (hear text); try reflexivity; apply IH.
Qed.

End Gate_facts.

(** ** More on the parser *)

Section Parser_more.
Import Py Parser.
Local Open Scope string_scope.
Local Open Scope list_scope.

Lemma lower_ascii_twice (c : ascii) :
  lower_ascii (lower_ascii c) = lower_ascii c.
Proof.
  destruct c as [[] [] [] [] [] [] [] []]; reflexivity.
Qed.

Lemma lower_twice (s : string) : lower (lower s) = lower s.
Proof.
  induction s as [|c s IH]; simpl; [reflexivity|].
  now rewrite lower_ascii_twice, IH.
Qed.

Lemma lower_app (a b : string) :
  lower (a ++ b)%string = (lower a ++ lower b)%string.
Proof.
  induction a as [|c a IH]; simpl; [reflexivity | now rewrite IH].
Qed.

Lemma split_from_space (cur a b : string) :
  split_from cur (a ++ String " " b)%string = split_from cur a ++ split b.
Proof.
  revert cur. induction a as [|c a IH]; intros cur; simpl.
  - reflexivity.
  - destruct (is_space c).
    + now rewrite IH, app_assoc.
    + apply IH.
Qed.

Lemma strip_fillers_space (a b : string) :
  strip_fillers (a ++ String " " b)%string
  = strip_fillers a ++ strip_fillers b.
Proof.
  unfold strip_fillers, without.
  rewrite lower_app. cbn [lower].
  change (lower_ascii " ") with " "%char.
  unfold split. now rewrite split_from_space, filter_app.
Qed.

Lemma strip_fillers_filler (f : string) :
  In (lower f) filler_words -> strip_fillers f = [].
Proof.
  unfold strip_fillers. intros Hin. simpl in Hin.
  repeat destruct Hin as [Hin | Hin]; try (rewrite <- Hin; reflexivity).
  destruct Hin.
Qed.

(** X1. The parser does not look at the case of the letters: a text and
    its lower-case form are parsed alike. *)
Theorem parse_command_ignores_case (text : string) :
  parse_command (lower text) = parse_command text.
Proof.
  unfold parse_command, strip_fillers. now rewrite lower_twice.
Qed.

(** X2. The cleaned words of two texts put side by side with a space are
    the cleaned words of the first followed by those of the second; so a
    filler word, in any case, put before or after a text does not change
    what [parse_command] returns. *)
Theorem fillers_change_nothing (f text : string) :
  In (lower f) filler_words ->
  (forall a b : string,
      strip_fillers (a ++ String " " b)%string
      = strip_fillers a ++ strip_fillers b)
  /\ parse_command (f ++ String " " text)%string = parse_command text
  /\ parse_command (text ++ String " " f)%string = parse_command text.
Proof.
  intros Hf. split; [exact strip_fillers_space|].
  unfold parse_command.
  rewrite !strip_fillers_space, (strip_fillers_filler f Hf), app_nil_r.
  split; reflexivity.
Qed.

Lemma fillers_change_nothing_witness :
  parse_command ("Please" ++ String " " "open notepad")%string
  = parse_command "open notepad".
Proof.
  refine (proj1 (proj2 (fillers_change_nothing "Please" "open notepad" _))).
  vm_compute. left. reflexivity.
Defined.

(** What the rules after the first five return. *)
Lemma later_rules_cases (cw cw' : list string) (i t : option string) :
  later_rules cw = (Some (i, t), cw') ->
  (i = Some "volume" /\ t = find isdigit (list_remove "volume" cw)
   /\ In "volume" cw)
  \/ (In i [Some "mute"; Some "unmute"; Some "shutdown"; Some "restart";
            Some "sleep"; Some "exit"] /\ t = None).
Proof.
  unfold later_rules, orelse, rule_volume, rule_keyword.
  destruct (mem "volume" cw) eqn:V.
  - intros E. inversion E; subst. left. repeat split. now apply mem_In.
  - repeat match goal with
           | |- context [if ?b then _ else _] => destruct b
           end;
      intros E; inversion E; subst; right; simpl; tauto.
Qed.

Lemma later_rules_silent (cw cw' : list string) :
  later_rules cw = (None, cw') ->
  forall k,
    In k ["volume"; "mute"; "unmute"; "shutdown"; "shut"; "restart";
          "sleep"; "exit"; "quit"] ->
    ~ In k cw.
Proof.
  intros E k Hk Hin. apply mem_In in Hin. revert E.
  unfold later_rules, orelse, rule_volume, rule_keyword.
  cbn [existsb].
  repeat match goal with
         | |- context [if ?b then _ else _] =>
             destruct b eqn:?; cbv beta iota zeta
         end;
    try discriminate.
  intros _. simpl in Hk.
  repeat destruct Hk as [Hk | Hk]; try (destruct Hk; fail); subst;
    rewrite Hin in *; simpl in *; rewrite ?orb_true_r in *; discriminate.
Qed.

Lemma later_rules_none (cw : list string) :
  (forall k,
      In k ["volume"; "mute"; "unmute"; "shutdown"; "shut"; "restart";
            "sleep"; "exit"; "quit"] ->
      ~ In k cw) ->
  later_rules cw = (None, cw).
Proof.
  intros Hno.
  assert (M : forall k,
             In k ["volume"; "mute"; "unmute"; "shutdown"; "shut";
                   "restart"; "sleep"; "exit"; "quit"] ->
             mem k cw = false).
  { intros k Hk. apply mem_false. auto. }
  pose proof (M "volume" ltac:(simpl; tauto)) as M1.
  pose proof (M "mute" ltac:(simpl; tauto)) as M2.
  pose proof (M "unmute" ltac:(simpl; tauto)) as M3.
  pose proof (M "shutdown" ltac:(simpl; tauto)) as M4.
  pose proof (M "shut" ltac:(simpl; tauto)) as M5.
  pose proof (M "restart" ltac:(simpl; tauto)) as M6.
  pose proof (M "sleep" ltac:(simpl; tauto)) as M7.
  pose proof (M "exit" ltac:(simpl; tauto)) as M8.
  pose proof (M "quit" ltac:(simpl; tauto)) as M9.
  unfold later_rules, orelse, rule_volume, rule_keyword. cbn [existsb].
  rewrite M1. cbn [orb]. cbv beta iota zeta.
  rewrite M2. cbn [orb]. cbv beta iota zeta.
  rewrite M3. cbn [orb]. cbv beta iota zeta.
  rewrite M4, M5. cbn [orb]. cbv beta iota zeta.
  rewrite M6. cbn [orb]. cbv beta iota zeta.
  rewrite M7. cbn [orb]. cbv beta iota zeta.
  rewrite M8, M9. reflexivity.
Qed.

Lemma first_entered_none (cw : list string) :
  first_entered target_table cw = None <->
  (forall k, In k ["open"; "close"; "search"; "find"; "delete"] ->
             ~ In k cw).
Proof.
  cbn [first_entered target_table].
  unfold guard_openfile, guard_open, guard_close, guard_search,
    guard_delete.
  split.
  - destruct (mem "open" cw) eqn:K1;
      [destruct (mem "file" cw); discriminate|].
    rewrite andb_false_r.
    destruct (mem "close" cw) eqn:K2; [discriminate|].
    destruct (mem "search" cw) eqn:K3; [discriminate|].
    destruct (mem "find" cw) eqn:K4; [discriminate|].
    destruct (mem "delete" cw) eqn:K5; [discriminate|].
    intros _ k Hk. apply mem_false. simpl in Hk.
    repeat destruct Hk as [Hk | Hk]; subst; try assumption.
    destruct Hk.
  - intros Hno.
    assert (M : forall k,
               In k ["open"; "close"; "search"; "find"; "delete"] ->
               mem k cw = false).
    { intros k Hk. apply mem_false. auto. }
    rewrite (M "open"), (M "close"), (M "search"), (M "find"),
      (M "delete") by (simpl; tauto).
    now rewrite andb_false_r.
Qed.

Lemma parse_command_shape (text : string) (i t : option string) :
  parse_command text = (i, t) ->
  ((i = None /\ t = None)
   \/ exists name,
        i = Some name
        /\ In name ["openfile"; "open"; "close"; "search"; "delete";
                    "volume"; "mute"; "unmute"; "shutdown"; "restart";
                    "sleep"; "exit"])
  /\ (In i [Some "mute"; Some "unmute"; Some "shutdown"; Some "restart";
            Some "sleep"; Some "exit"] -> t = None).
Proof.
  unfold parse_command. set (toks := strip_fillers text). intros R.
  pose proof (target_rules_eq toks) as T.
  destruct (first_entered target_table toks) as [[[i' g'] e']|] eqn:F.
  - apply first_entered_In in F. destruct F as [Hin _].
    destruct (truthy (e' toks)) eqn:Tr.
    + rewrite (parse_words_returned _ _ _ T) in R. inversion R; subst.
      simpl in Hin. split.
      * right. exists i'. split; [reflexivity|].
        repeat destruct Hin as [Hin | Hin];
          inversion Hin; subst; simpl; tauto.
      * intros Hi. exfalso. simpl in Hi.
        repeat destruct Hin as [Hin | Hin];
          inversion Hin; subst; intuition discriminate.
    + rewrite (parse_words_emptied _ T) in R. inversion R; subst.
      split; [left; tauto | reflexivity].
  - rewrite (parse_words_later _ T) in R.
    destruct (later_rules toks) as [[[i0 t0]|] cw'] eqn:L; simpl in R.
    + inversion R; subst.
      destruct (later_rules_cases _ _ _ _ L) as [(-> & _ & _) | [Hi ->]].
      * split.
        -- right. exists "volume". split; [reflexivity | simpl; tauto].
        -- simpl. intuition discriminate.
      * split; [|reflexivity].
        simpl in Hi.
        repeat destruct Hi as [Hi | Hi]; try (destruct Hi; fail); subst;
          right; eexists; (split; [reflexivity | simpl; tauto]).
    + inversion R; subst. split; [left; tauto | reflexivity].
Qed.

(** X3. [parse_command] returns no intent with no target, or one of
    twelve intents; with "mute", "unmute", "shutdown", "restart", "sleep"
    and "exit" the target is None. *)
Theorem intents_are_closed (text : string) (i t : option string) :
  parse_command text = (i, t) ->
  ((i = None /\ t = None)
   \/ exists name,
        i = Some name
        /\ In name ["openfile"; "open"; "close"; "search"; "delete";
                    "volume"; "mute"; "unmute"; "shutdown"; "restart";
                    "sleep"; "exit"])
  /\ (In i [Some "mute"; Some "unmute"; Some "shutdown"; Some "restart";
            Some "sleep"; Some "exit"] -> t = None).
Proof. apply parse_command_shape. Qed.

Lemma intents_are_closed_witness :
  ((Some "shutdown" = None /\ @None string = None)
   \/ exists name,
        Some "shutdown" = Some name
        /\ In name ["openfile"; "open"; "close"; "search"; "delete";
                    "volume"; "mute"; "unmute"; "shutdown"; "restart";
                    "sleep"; "exit"])
  /\ (In (Some "shutdown")
         [Some "mute"; Some "unmute"; Some "shutdown"; Some "restart";
          Some "sleep"; Some "exit"] -> @None string = None).
Proof.
  apply (intents_are_closed "shut down the computer").
  vm_compute. reflexivity.
Defined.

(** X5. [parse_command] returns (None, None) in two cases and no other:
    none of the fourteen words that start a rule is among the cleaned
    words; or the first rule entered, one of the five with a target, is
    left with no word. *)
Theorem unknown_exactly (text : string) :
  let toks := strip_fillers text in
  parse_command text = (None, None) <->
  (forall k,
      In k ["open"; "close"; "search"; "find"; "delete"; "volume"; "mute";
            "unmute"; "shutdown"; "shut"; "restart"; "sleep"; "exit";
            "quit"] ->
      ~ In k toks)
  \/ (exists i g e,
        first_entered target_table toks = Some (i, g, e) /\ e toks = []).
Proof.
  intros toks. unfold parse_command. fold toks.
  pose proof (target_rules_eq toks) as T.
  destruct (first_entered target_table toks) as [[[i' g'] e']|] eqn:F.
  - destruct (truthy (e' toks)) eqn:Tr.
    + rewrite (parse_words_returned _ _ _ T).
      split; [intros R; inversion R|].
      intros [Hno | (i & g & e & E & Em)].
      * assert (N : first_entered target_table toks = None).
        { apply first_entered_none. intros k Hk. apply Hno.
          simpl in Hk |- *. tauto. }
        rewrite N in F. discriminate.
      * inversion E; subst. rewrite Em in Tr. discriminate.
    + rewrite (parse_words_emptied _ T). split; [|reflexivity].
      intros _. right. exists i', g', e'. split; [reflexivity|].
      now apply truthy_false.
  - rewrite (parse_words_later _ T).
    pose proof (proj1 (first_entered_none toks) F) as Hfirst.
    split.
    + destruct (later_rules toks) as [[[i0 t0]|] cw'] eqn:L; simpl.
      * intros R. inversion R; subst. exfalso.
        destruct (later_rules_cases _ _ _ _ L) as [(Hi & _ & _) | [Hi _]];
          [discriminate|].
        simpl in Hi. intuition discriminate.
      * intros _. left. intros k Hk.
        pose proof (later_rules_silent _ _ L k) as Hl.
        specialize (Hfirst k). simpl in Hk, Hfirst, Hl.
        intuition (subst; tauto).
    + intros [Hno | (i & g & e & E & _)]; [|discriminate].
      rewrite later_rules_none; [reflexivity|].
      intros k Hk. apply Hno. simpl in Hk |- *. tauto.
Qed.

Lemma unknown_exactly_witness :
  parse_command "hello there, how are you" = (None, None).
Proof.
  apply (proj2 (unknown_exactly "hello there, how are you")).
  left. intros k Hk Hin. vm_compute in Hin. simpl in Hk.
  intuition (subst; discriminate).
Defined.

End Parser_more.

(** ** The gate and the main loop *)

Section Loop_facts.
Import Py Main MainLoop Example.
Local Open Scope string_scope.
Local Open Scope list_scope.

(** The loop of the gate over events that keep it waiting. *)
Lemma listen_waiting (pre rest : list audio_event) (said : list string) :
  forallb keeps_waiting pre = true ->
  listen (pre ++ rest) said = listen rest (said ++ reprompts pre).
Proof.
  revert said. induction pre as [|e pre IH]; intros said Hw; simpl.
  - now rewrite app_nil_r.
  - simpl in Hw. apply andb_true_iff in Hw. destruct Hw as [He Hpre].
    destruct e as [|text| |]; simpl in He;
      [auto | | discriminate | discriminate].
    destruct (hear text); [discriminate | | auto].
    rewrite IH by assumption. now rewrite <- app_assoc.
Qed.

(** X6. While no utterance answers, the gate goes on waiting, and speaks
    "Please say yes or no" once for each phrase it makes nothing of; the
    first utterance that answers decides, and what comes after it is left
    on the microphone. *)
Theorem gate_waits_for_an_answer (prompt : string) (said : list string)
    (pre post : list audio_event) :
  forallb keeps_waiting pre = true ->
  get_confirmation prompt {| spoken := said; microphone := pre |}
  = (None,
     {| spoken := (said ++ [prompt]) ++ reprompts pre; microphone := [] |})
  /\ (forall text b,
        hear text = Answer b ->
        get_confirmation prompt
          {| spoken := said; microphone := pre ++ Phrase text :: post |}
        = (Some b,
           {| spoken := (said ++ [prompt]) ++ reprompts pre;
              microphone := post |})).
Proof.
  intros Hw. unfold get_confirmation, speak. cbn [spoken microphone].
  split.
  - rewrite <- (app_nil_r pre) at 1. now rewrite listen_waiting.
  - intros text b Hb. rewrite listen_waiting by assumption.
    simpl. now rewrite Hb.
Qed.

Lemma gate_waits_for_an_answer_witness :
  get_confirmation "Are you sure you want to sleep?"
    {| spoken := [];
       microphone := [Silence; Phrase "what"; Phrase EmptyString; Phrase "pardon"]
                     ++ Phrase "cancel that" :: [Phrase "yes"] |}
  = (Some false,
     {| spoken := ["Are you sure you want to sleep?";
                   "Please say yes or no"; "Please say yes or no"];
        microphone := [Phrase "yes"] |}).
Proof.
  refine (proj2 (gate_waits_for_an_answer "Are you sure you want to sleep?"
                   [] [Silence; Phrase "what"; Phrase EmptyString; Phrase "pardon"]
                   [Phrase "yes"] _) "cancel that" false _);
    reflexivity.
Defined.

(** X7. In a gated branch the answer decides: on a yes the action runs
    once and what it returns is spoken; on a no the cancellation is
    spoken and the Windows module is left as it was.  The delete branch
    asks only when the search finds something, and then deletes the first
    match. *)
Theorem answer_decides {OS : Type} {P : Windows.Platform OS}
    (w : Windows.State OS) (said : list string)
    (pre post : list audio_event) (text : string) (b : bool) :
  forallb keeps_waiting pre = true ->
  hear text = Answer b ->
  let io := {| spoken := said; microphone := pre ++ Phrase text :: post |} in
  let after prompt line :=
    {| spoken := ((said ++ [prompt]) ++ reprompts pre) ++ [line];
       microphone := post |} in
  (forall prompt cancelled action,
      confirmed_action prompt cancelled action (w, io)
      = Some (if b then (snd (action w), after prompt (fst (action w)))
              else (w, after prompt cancelled)))
  /\ (forall target first others,
        target <> EmptyString ->
        Windows.search_file target w = first :: others ->
        on_delete (Some target) (w, io)
        = Some (if b
                then (snd (Windows.delete_file first w),
                      after ("Are you sure you want to delete " ++ target
                               ++ "?")%string
                        (fst (Windows.delete_file first w)))
                else (w, after ("Are you sure you want to delete " ++ target
                                  ++ "?")%string "Delete cancelled")))
  /\ (forall target,
        target <> EmptyString -> Windows.search_file target w = [] ->
        on_delete (Some target) (w, io)
        = Some (w, speak ("Could not find file " ++ target)%string io)).
Proof.
  intros Hw Hb io after.
  assert (C : forall prompt cancelled action,
             confirmed_action prompt cancelled action (w, io)
             = Some (if b
                     then (snd (action w), after prompt (fst (action w)))
                     else (w, after prompt cancelled))).
  { intros prompt cancelled action. unfold confirmed_action, io.
    unfold get_confirmation, speak. cbn [spoken microphone].
    rewrite listen_waiting by assumption. simpl. rewrite Hb.
    destruct b; [destruct (action w) as [result w']|]; reflexivity. }
  split; [exact C | split].
  - intros target first others Hne Hs. unfold on_delete.
    destruct target as [|c target]; [congruence|]. rewrite Hs. apply C.
  - intros target Hne Hs. unfold on_delete.
    destruct target as [|c target]; [congruence|]. now rewrite Hs.
Qed.

Lemma answer_decides_witness :
  on_delete (Some "report")
    (live,
     {| spoken := [];
        microphone := [Phrase "which one"] ++ Phrase "yes" :: [] |})
  = Some (snd (Windows.delete_file "C:\Users\sam\Desktop\report1.txt" live),
          {| spoken := ["Are you sure you want to delete report?";
                        "Please say yes or no"; "Deleted report1.txt"];
             microphone := [] |}).
Proof.
  refine (proj1 (proj2 (answer_decides live [] [Phrase "which one"] []
                          "yes" true _ _))
            "report" "C:\Users\sam\Desktop\report1.txt" _ _ _).
  - reflexivity.
  - reflexivity.
  - discriminate.
  - reflexivity.
Defined.

Lemma intent_is_true (intent : option string) (name : string) :
  intent_is intent name = true <-> intent = Some name.
Proof.
  destruct intent as [i|]; simpl; [|split; discriminate].
  rewrite String.eqb_eq. split; congruence.
Qed.

Lemma listen_answered (events : list audio_event) (said : list string)
    (r : option bool) (io' : IO) :
  listen events said = (r, io') ->
  (exists more, spoken io' = said ++ more)
  /\ (exists used, events = used ++ microphone io').
Proof.
  revert said. induction events as [|e events IH]; intros said; simpl.
  - intros E. inversion E; subst. simpl.
    split; [exists []; now rewrite app_nil_r | now exists []].
  - assert (Skip : listen events said = (r, io') ->
                   (exists more, spoken io' = said ++ more)
                   /\ (exists used, e :: events = used ++ microphone io')).
    { intros E. destruct (IH _ E) as [Hs [used Hu]]. split; [assumption|].
      exists (e :: used). simpl. now rewrite <- Hu. }
    assert (Stop : forall b,
               (b, {| spoken := said; microphone := events |}) = (r, io') ->
               (exists more, spoken io' = said ++ more)
               /\ (exists used, e :: events = used ++ microphone io')).
    { intros b E. inversion E; subst. simpl.
      split; [exists []; now rewrite app_nil_r | now exists [e]]. }
    destruct e as [|text| |]; [exact Skip | | apply Stop |].
    + destruct (hear text); [apply Stop | | exact Skip].
      intros E. destruct (IH _ E) as [[more Hs] [used Hu]]. split.
      * exists ("Please say yes or no" :: more).
        now rewrite Hs, <- app_assoc.
      * exists (Phrase text :: used). simpl. now rewrite <- Hu.
    + intros E. inversion E; subst. simpl.
      split; [exists []; now rewrite app_nil_r | now exists []].
Qed.

Lemma speak_answered (line : string) (io : IO) : answered io (speak line io).
Proof.
  split; [exists [line]; split; [discriminate | reflexivity] | now exists []].
Qed.

Lemma confirmed_action_cases {OS : Type} {P : Windows.Platform OS}
    (prompt cancelled : string)
    (action : Windows.State OS -> string * Windows.State OS)
    (w w' : Windows.State OS) (io io' : IO) :
  confirmed_action prompt cancelled action (w, io) = Some (w', io') ->
  answered io io' /\ (w' = w \/ w' = snd (action w)).
Proof.
  unfold confirmed_action, get_confirmation.
  destruct (listen _ _) as [r io1] eqn:L.
  apply listen_answered in L. cbn [speak spoken microphone] in L.
  destruct L as [[more Hs] [used Hu]].
  assert (A : forall line, answered io (speak line io1)).
  { intros line. split.
    - exists ((prompt :: more) ++ [line]). split.
      + destruct more; discriminate.
      + simpl. rewrite Hs, <- !app_assoc. reflexivity.
    - exists used. exact Hu. }
  destruct r as [[|]|].
  - destruct (action w) as [result w1] eqn:Ea. intros E.
    inversion E; subst. split; [apply A | right; reflexivity].
  - intros E. inversion E; subst. split; [apply A | left; reflexivity].
  - destruct (microphone io1) as [|[|text| |] rest] eqn:M;
      try discriminate.
    intros E. inversion E; subst. split; [|left; reflexivity].
    split.
    + exists (prompt :: more). split; [discriminate|].
      rewrite Hs, <- app_assoc. reflexivity.
    + exists used. rewrite M. exact Hu.
Qed.

Lemma say_result_turn {OS : Type} {P : Windows.Platform OS}
    (c : Windows.mutating_call) (w : Windows.State OS) (io : IO) :
  plain_turn w io (say_result (Windows.perform c) (w, io)).
Proof.
  unfold say_result.
  pose proof (Calls w io c) as T.
  destruct (Windows.perform c w) as [result w']. exact T.
Qed.

Lemma plain_turn_cases {OS : Type} {P : Windows.Platform OS}
    (w w' : Windows.State OS) (io io' : IO) :
  plain_turn w io (w', io') ->
  answered io io'
  /\ (w' = w \/ exists c, w' = snd (Windows.perform c w)).
Proof.
  intros T. inversion T; subst.
  - split; [apply speak_answered | now left].
  - split; [apply speak_answered | right; now exists c].
Qed.

Lemma plain_branches {OS : Type} {P : Windows.Platform OS}
    (target : option string) (w : Windows.State OS) (io : IO) :
  plain_turn w io (on_volume target (w, io))
  /\ plain_turn w io (on_open target (w, io))
  /\ plain_turn w io (on_close target (w, io))
  /\ plain_turn w io (on_search target (w, io))
  /\ plain_turn w io (on_openfile target (w, io)).
Proof.
  unfold on_volume, on_open, on_close, on_search, on_openfile.
  destruct (given target) as [t|]; [|repeat split; apply Only_speaks].
  repeat split.
  - destruct (int t) as [level|]; [|apply Only_speaks].
    destruct ((0 <=? level)%Z && (level <=? 100)%Z); [|apply Only_speaks].
    apply (say_result_turn (Windows.SetVolume level)).
  - apply (say_result_turn (Windows.OpenApp t)).
  - apply (say_result_turn (Windows.CloseApp t)).
  - cbn [fst]. destruct (Windows.search_file t w); apply Only_speaks.
  - cbn [fst]. destruct (Windows.search_file t w) as [|first others];
      [apply Only_speaks | apply (say_result_turn (Windows.OpenFile first))].
Qed.

Lemma gated_cases {OS : Type} {P : Windows.Platform OS} (g : gated)
    (w w' : Windows.State OS) (io io' : IO) :
  run_gated g (w, io) = Some (w', io') ->
  answered io io'
  /\ (w' = w \/ exists c, w' = snd (Windows.perform c w)).
Proof.
  assert (C : forall prompt cancelled c,
             confirmed_action prompt cancelled (Windows.perform c) (w, io)
             = Some (w', io') ->
             answered io io'
             /\ (w' = w \/ exists c, w' = snd (Windows.perform c w))).
  { intros prompt cancelled c E. apply confirmed_action_cases in E.
    destruct E as [A [-> | ->]];
      (split; [exact A | (now left) || (right; now exists c)]). }
  destruct g as [| | |target]; cbn [run_gated].
  - apply (C _ _ Windows.ShutdownSystem).
  - apply (C _ _ Windows.RestartSystem).
  - apply (C _ _ Windows.SleepSystem).
  - unfold on_delete.
    destruct target as [[|ch target]|];
      try (intros E; inversion E; subst;
           split; [apply speak_answered | now left]).
    destruct (Windows.search_file _ w) as [|first others].
    + intros E; inversion E; subst.
      split; [apply speak_answered | now left].
    + apply (C _ _ (Windows.DeleteFile first)).
Qed.

(** What one turn of the loop on a recognized text comes to. *)
Lemma handle_cases {OS : Type} {P : Windows.Platform OS}
    (text : string) (w w' : Windows.State OS) (io io' : IO) (b : bool) :
  handle text (w, io) = Some (b, (w', io')) ->
  answered io io'
  /\ (w' = w \/ exists c, w' = snd (Windows.perform c w))
  /\ (b = true <-> fst (Parser.parse_command text) = Some "exit")
  /\ (b = true -> w' = w /\ io' = speak "Goodbye" io).
Proof.
  unfold handle.
  pose proof (parse_command_shape text) as Shape.
  destruct (Parser.parse_command text) as [intent target] eqn:R.
  specialize (Shape intent target eq_refl). destruct Shape as [Shape _].
  cbn [fst].
  destruct (plain_branches target w io) as (Tv & To & Tc & Ts & Tf).
  destruct (intent_is intent "exit") eqn:I0.
  { apply intent_is_true in I0. intros E. inversion E; subst.
    split; [apply speak_answered | split; [now left | split]];
      [split; reflexivity | intros _; split; reflexivity]. }
  assert (Hne : intent <> Some "exit").
  { intros Hc. apply intent_is_true in Hc. congruence. }
  assert (Plain : forall s' : Windows.State OS * IO,
             plain_turn w io s' -> Some (false, s') = Some (b, (w', io')) ->
             answered io io'
             /\ (w' = w \/ exists c, w' = snd (Windows.perform c w))
             /\ (b = true <-> intent = Some "exit")
             /\ (b = true -> w' = w /\ io' = speak "Goodbye" io)).
  { intros s' T E. inversion E; subst.
    destruct (plain_turn_cases _ _ _ _ T) as [A St].
    split; [exact A | split; [exact St | split]];
      [split; [discriminate | intros Hc; contradiction] | discriminate]. }
  assert (Gated : forall g,
             option_map (pair false) (run_gated g (w, io))
             = Some (b, (w', io')) ->
             answered io io'
             /\ (w' = w \/ exists c, w' = snd (Windows.perform c w))
             /\ (b = true <-> intent = Some "exit")
             /\ (b = true -> w' = w /\ io' = speak "Goodbye" io)).
  { intros g E.
    destruct (run_gated g (w, io)) as [[w1 io1]|] eqn:G; [|discriminate].
    simpl in E. inversion E; subst.
    destruct (gated_cases _ _ _ _ _ G) as [A St].
    split; [exact A | split; [exact St | split]];
      [split; [discriminate | intros Hc; contradiction] | discriminate]. }
  destruct (intent_is intent "volume") eqn:I1; [apply (Plain _ Tv)|].
  destruct (intent_is intent "mute") eqn:I2;
    [apply Plain; apply (say_result_turn Windows.Mute)|].
  destruct (intent_is intent "unmute") eqn:I3;
    [apply Plain; apply (say_result_turn Windows.Unmute)|].
  destruct (intent_is intent "shutdown") eqn:I4; [apply (Gated Shutdown)|].
  destruct (intent_is intent "restart") eqn:I5; [apply (Gated Restart)|].
  destruct (intent_is intent "sleep") eqn:I6; [apply (Gated Sleep)|].
  destruct (intent_is intent "open") eqn:I7; [apply (Plain _ To)|].
  destruct (intent_is intent "close") eqn:I8; [apply (Plain _ Tc)|].
  destruct (intent_is intent "search") eqn:I9; [apply (Plain _ Ts)|].
  destruct (intent_is intent "delete") eqn:I10;
    [apply (Gated (Delete target))|].
  destruct (intent_is intent "openfile") eqn:I11; [apply (Plain _ Tf)|].
  destruct intent as [name|]; [|apply Plain; apply Only_speaks].
  exfalso. destruct Shape as [[Hc _] | (n & Hn & Hin)]; [discriminate|].
  inversion Hn; subst n. simpl in I0, I1, I2, I3, I4, I5, I6, I7, I8, I9,
    I10, I11.
  simpl in Hin.
  repeat destruct Hin as [Hin | Hin]; try (destruct Hin; fail); subst name;
    discriminate.
Qed.

Lemma listen_none (events : list audio_event) (said : list string)
    (io' : IO) :
  listen events said = (None, io') ->
  match microphone io' with
  | Interrupt :: _ => True
  | _ => forallb keeps_waiting events = true
  end.
Proof.
  revert said. induction events as [|e events IH]; intros said;
    cbn [listen].
  - intros E. inversion E; subst. reflexivity.
  - destruct e as [|text| |].
    + intros E. specialize (IH _ E).
      destruct (microphone io') as [|[|t| |] r]; try exact I; exact IH.
    + cbn [forallb keeps_waiting].
      destruct (hear text); [discriminate | |];
        intros E; specialize (IH _ E);
        destruct (microphone io') as [|[|t| |] r]; try exact I; exact IH.
    + discriminate.
    + intros E. inversion E; subst. exact I.
Qed.

Lemma gated_none {OS : Type} {P : Windows.Platform OS} (g : gated)
    (w : Windows.State OS) (io : IO) :
  run_gated g (w, io) = None ->
  forallb keeps_waiting (microphone io) = true.
Proof.
  assert (C : forall prompt cancelled action,
             confirmed_action prompt cancelled action (w, io) = None ->
             forallb keeps_waiting (microphone io) = true).
  { intros prompt cancelled action. unfold confirmed_action, get_confirmation.
    cbn [speak spoken microphone].
    destruct (listen _ _) as [[[|]|] io1] eqn:L.
    - destruct (action w); discriminate.
    - discriminate.
    - apply listen_none in L.
      destruct (microphone io1) as [|[|t| |] r]; try discriminate;
        intros _; exact L. }
  destruct g as [| | |target]; cbn [run_gated]; try apply C.
  unfold on_delete. destruct target as [[|c target]|]; try discriminate.
  destruct (Windows.search_file _ w); [discriminate | apply C].
Qed.

(** When a turn of the loop does not come back, it is inside a
    confirmation and no event on the microphone ends the wait. *)
Lemma handle_none {OS : Type} {P : Windows.Platform OS} (text : string)
    (w : Windows.State OS) (io : IO) :
  handle text (w, io) = None ->
  In (fst (Parser.parse_command text))
     [Some "shutdown"; Some "restart"; Some "sleep"; Some "delete"]
  /\ forallb keeps_waiting (microphone io) = true.
Proof.
  unfold handle.
  destruct (Parser.parse_command text) as [intent target]. cbn [fst].
  assert (Gated : forall g name,
             intent_is intent name = true ->
             In (Some name)
                [Some "shutdown"; Some "restart"; Some "sleep";
                 Some "delete"] ->
             option_map (pair false) (run_gated g (w, io)) = None ->
             In intent
                [Some "shutdown"; Some "restart"; Some "sleep";
                 Some "delete"]
             /\ forallb keeps_waiting (microphone io) = true).
  { intros g name Hi Hin E. apply intent_is_true in Hi. subst intent.
    split; [exact Hin|].
    destruct (run_gated g (w, io)) as [s'|] eqn:G; [discriminate|].
    now apply gated_none in G. }
  destruct (intent_is intent "exit"); [discriminate|].
  destruct (intent_is intent "volume"); [discriminate|].
  destruct (intent_is intent "mute"); [discriminate|].
  destruct (intent_is intent "unmute"); [discriminate|].
  destruct (intent_is intent "shutdown") eqn:I4;
    [apply (Gated Shutdown "shutdown" I4); simpl; tauto|].
  destruct (intent_is intent "restart") eqn:I5;
    [apply (Gated Restart "restart" I5); simpl; tauto|].
  destruct (intent_is intent "sleep") eqn:I6;
    [apply (Gated Sleep "sleep" I6); simpl; tauto|].
  destruct (intent_is intent "open"); [discriminate|].
  destruct (intent_is intent "close"); [discriminate|].
  destruct (intent_is intent "search"); [discriminate|].
  destruct (intent_is intent "delete") eqn:I10;
    [apply (Gated (Delete target) "delete" I10); simpl; tauto|].
  destruct (intent_is intent "openfile"); [discriminate|].
  destruct intent; discriminate.
Qed.

(** X8. Every recognized text that is not empty gets an answer, unless
    the events end while its confirmation is still waiting.  When the
    turn of the loop comes back, it has spoken at least one more line,
    kept what was spoken before, taken events only from the front of the
    microphone, and left the Windows module as it was or as one single
    call that acts on the system leaves it.  It does not come back only
    in the four gated branches, and only when no event on the microphone
    answers, faults or interrupts. *)
Theorem every_utterance_is_answered {OS : Type} {P : Windows.Platform OS}
    (text : string) (w : Windows.State OS) (io : IO) :
  match handle text (w, io) with
  | Some (b, (w', io')) =>
      answered io io'
      /\ (w' = w \/ exists c, w' = snd (Windows.perform c w))
  | None =>
      In (fst (Parser.parse_command text))
         [Some "shutdown"; Some "restart"; Some "sleep"; Some "delete"]
      /\ forallb keeps_waiting (microphone io) = true
  end.
Proof.
  destruct (handle text (w, io)) as [[b [w' io']]|] eqn:E.
  - destruct (handle_cases _ _ _ _ _ _ E) as (A & St & _). now split.
  - exact (handle_none text w io E).
Qed.

Lemma perform_announced {OS : Type} {P : Windows.Platform OS}
    (w : Windows.State OS) (c : Windows.mutating_call) :
  Windows.ANNOUNCE_ONLY w = true -> snd (Windows.perform c w) = w.
Proof.
  intros A.
  destruct c; cbn [Windows.perform];
    unfold Windows.set_volume, Windows.mute, Windows.unmute,
      Windows.shutdown_system, Windows.restart_system,
      Windows.sleep_system, Windows.open_app, Windows.close_app,
      Windows.open_file, Windows.move_file, Windows.delete_file;
    rewrite A; reflexivity.
Qed.


(** X9. With the announce-only flag set, the whole loop, over any events,
    ends with the Windows module as it started, flag and system. *)
Theorem safe_mode_holds_through_the_loop {OS : Type}
    {P : Windows.Platform OS} (w : Windows.State OS) :
  Windows.ANNOUNCE_ONLY w = true ->
  forall (fuel : nat) (io : IO),
    match main_loop fuel (w, io) with
    | Exited (w', _) | Listening (w', _) => w' = w
    | Confirming | OutOfFuel => True
    end.
Proof.
  intros A fuel. induction fuel as [|fuel IH]; intros io; [exact I|].
  cbn [main_loop].
  destruct (microphone io) as [|e rest]; [reflexivity|].
  destruct e as [|text| |]; try apply IH; [|reflexivity].
  destruct (String.eqb text EmptyString); [apply IH|].
  destruct (handle text _) as [[b [w1 io1]]|] eqn:E; [|exact I].
  destruct (handle_cases _ _ _ _ _ _ E) as (_ & St & _).
  assert (w1 = w) as ->.
  { destruct St as [-> | [c ->]]; [reflexivity|].
    now apply perform_announced. }
  destruct b; [reflexivity | apply IH].
Qed.

Lemma safe_mode_holds_through_the_loop_witness :
  match
    main_loop 9
      (safe,
       {| spoken := [];
          microphone := [Phrase "delete report1"; Phrase "yes";
                         Phrase "set volume to 80"; Fault;
                         Phrase "open notepad"; Phrase "shut down";
                         Phrase "yeah"; Phrase "quit"] |})
  with
  | Exited (w', _) | Listening (w', _) => w' = safe
  | Confirming | OutOfFuel => True
  end.
Proof.
  apply (safe_mode_holds_through_the_loop safe). reflexivity.
Defined.



(** X11. Turns with nothing recognized, empty texts and exceptions of the
    read or the recognizer are passed over: the loop goes on as if they
    had not been there, with nothing spoken and nothing done. *)
Theorem quiet_events_are_skipped {OS : Type} {P : Windows.Platform OS}
    (w : Windows.State OS) (said : list string)
    (pre rest : list audio_event) :
  forallb quiet pre = true ->
  run (w, {| spoken := said; microphone := pre ++ rest |})
  = run (w, {| spoken := said; microphone := rest |})
  /\ run (w, {| spoken := said; microphone := pre |})
     = Listening (w, {| spoken := said; microphone := [] |}).
Proof.
  intros Hq.
  assert (Skip : forall fuel rest',
             main_loop (List.length pre + fuel)
               (w, {| spoken := said; microphone := pre ++ rest' |})
             = main_loop fuel (w, {| spoken := said; microphone := rest' |})).
  { intros fuel rest'. induction pre as [|e pre IH]; [reflexivity|].
    simpl in Hq. apply andb_true_iff in Hq. destruct Hq as [He Hpre].
    cbn [List.length Nat.add main_loop app microphone spoken].
    destruct e as [|text| |]; simpl in He; try (now apply IH);
      [|discriminate].
    rewrite He. now apply IH. }
  unfold run. cbn [snd microphone]. split.
  - rewrite length_app.
    replace (S (List.length pre + List.length rest))
      with (List.length pre + S (List.length rest))%nat by lia.
    apply Skip.
  - rewrite <- (app_nil_r pre) at 2.
    replace (S (List.length pre)) with (List.length pre + 1)%nat by lia.
    rewrite Skip. reflexivity.
Qed.

Lemma quiet_events_are_skipped_witness :
  run (live,
       {| spoken := [];
          microphone := [Silence; Fault; Phrase EmptyString; Fault]
                        ++ [Phrase "mute"] |})
  = run (live, {| spoken := []; microphone := [Phrase "mute"] |}).
Proof.
  refine (proj1 (quiet_events_are_skipped live []
                   [Silence; Fault; Phrase EmptyString; Fault] [Phrase "mute"] _)).
  reflexivity.
Defined.

Lemma digit_not_space (c : ascii) :
  is_digit c = true ->
  is_space c = false /\ c <> "+"%char /\ c <> "-"%char
  /\ (0 <= digit_value c <= 9)%Z.
Proof.
  destruct c as [[] [] [] [] [] [] [] []]; try discriminate;
    intros _; repeat split; try discriminate; vm_compute; discriminate.
Qed.

Lemma rstrip_digits (s : string) : all_digits s = true -> rstrip s = s.
Proof.
  induction s as [|c s IH]; simpl; [reflexivity|].
  intros Hd. apply andb_true_iff in Hd. destruct Hd as [Hc Hs].
  rewrite (IH Hs). destruct s; [|reflexivity].
  destruct (digit_not_space c Hc) as [-> _]. reflexivity.
Qed.

Lemma int_digits_all (s : string) :
  forall (acc : Z) (seen : bool),
    all_digits s = true -> (0 <= acc)%Z ->
    seen = true \/ s <> EmptyString ->
    exists level, int_digits acc seen s = Some level /\ (0 <= level)%Z.
Proof.
  induction s as [|c s IH]; intros acc seen Hd Hacc Hne; cbn [int_digits].
  - destruct Hne as [-> | Hne]; [now exists acc | congruence].
  - simpl in Hd. apply andb_true_iff in Hd. destruct Hd as [Hc Hs].
    rewrite Hc. destruct (digit_not_space c Hc) as (_ & _ & _ & Hv).
    apply IH; solve [assumption | lia | now left].
Qed.

Lemma digit_count_all (s : string) :
  all_digits s = true -> digit_count s = String.length s.
Proof.
  induction s as [|c s IH]; [reflexivity|].
  cbn [all_digits digit_count String.length]. intros Hd.
  apply andb_true_iff in Hd. destruct Hd as [Hc Hs].
  rewrite Hc, (IH Hs). reflexivity.
Qed.

(** [int] on a word that [isdigit] accepts: the digits are read unless
    there are more than 4300 of them. *)
Lemma int_of_digits (d : string) :
  isdigit d = true ->
  int d = if (max_str_digits <? String.length d)%nat then None
          else int_digits 0 false d.
Proof.
  destruct d as [|c d]; [discriminate|]. cbn [isdigit]. intros Hd.
  pose proof Hd as Hd'. cbn [all_digits] in Hd'.
  apply andb_true_iff in Hd'. destruct Hd' as [Hc Hrest].
  destruct (digit_not_space c Hc) as (Hsp & Hplus & Hminus & _).
  assert (St : strip (String c d) = String c d).
  { unfold strip. cbn [lstrip]. rewrite Hsp. now apply rstrip_digits. }
  unfold int. rewrite St, (digit_count_all _ Hd).
  destruct (max_str_digits <? String.length (String c d))%nat;
    [reflexivity|].
  destruct c as [[] [] [] [] [] [] [] []]; try discriminate Hc;
    try (exfalso; apply Hplus; reflexivity);
    try (exfalso; apply Hminus; reflexivity); reflexivity.
Qed.

(** X12. A turn on an ASCII utterance taken for "volume".  Without a
    number "Please specify a volume level" is spoken.  With one, the
    number is a word of the utterance that [isdigit] accepts, and the
    turn follows [int]: when it gives a level, up to 100 the level goes
    to [set_volume] and what it returns is spoken, above 100 "Volume must
    be between 0 and 100" is spoken and the Windows module is not called;
    when it raises, "Please specify a valid number for volume" is
    spoken.  On such a word [int] raises exactly when the word has more
    than 4300 digits, and a level it gives is not negative. *)
Theorem volume_turn {OS : Type} {P : Windows.Platform OS} (text : string)
    (t : option string) (w : Windows.State OS) (io : IO) :
  isascii text = true ->
  Parser.parse_command text = (Some "volume", t) ->
  match t with
  | None =>
      handle text (w, io)
      = Some (false, (w, speak "Please specify a volume level" io))
  | Some d =>
      isdigit d = true /\ In d (Parser.strip_fillers text)
      /\ handle text (w, io)
         = Some (false,
                 match int d with
                 | Some level =>
                     if (level <=? 100)%Z
                     then (snd (Windows.set_volume level w),
                           speak (fst (Windows.set_volume level w)) io)
                     else (w, speak "Volume must be between 0 and 100" io)
                 | None =>
                     (w, speak "Please specify a valid number for volume"
                           io)
                 end)
      /\ match int d with
         | Some level =>
             (String.length d <= max_str_digits)%nat /\ (0 <= level)%Z
         | None => (max_str_digits < String.length d)%nat
         end
  end.
Proof.
  intros _ R.
  assert (Hh : handle text (w, io) = Some (false, on_volume t (w, io))).
  { unfold handle. rewrite R. reflexivity. }
  rewrite Hh. clear Hh.
  assert (Hfind : t = find isdigit
                        (list_remove "volume" (Parser.strip_fillers text))).
  { revert R. unfold Parser.parse_command.
    set (toks := Parser.strip_fillers text). intros R.
    pose proof (target_rules_eq toks) as T.
    destruct (Parser.first_entered Parser.target_table toks)
      as [[[i' g'] e']|] eqn:F.
    - apply first_entered_In in F. destruct F as [Hin _].
      destruct (truthy (e' toks)) eqn:Tr.
      + rewrite (parse_words_returned _ _ _ T) in R. inversion R; subst.
        simpl in Hin.
        repeat destruct Hin as [Hin | Hin]; try (destruct Hin; fail);
          discriminate.
      + rewrite (parse_words_emptied _ T) in R. discriminate.
    - rewrite (parse_words_later _ T) in R.
      destruct (Parser.later_rules toks) as [[[i0 t0]|] cw'] eqn:L;
        simpl in R; [|discriminate].
      inversion R; subst.
      destruct (later_rules_cases _ _ _ _ L) as [(_ & Ht & _) | [Hi _]];
        [exact Ht|].
      simpl in Hi. intuition discriminate. }
  destruct t as [d|]; [|reflexivity].
  symmetry in Hfind. apply find_some in Hfind. destruct Hfind as [Hin Hd].
  split; [exact Hd|]. split; [now apply list_remove_incl in Hin|].
  unfold on_volume.
  assert (Hg : given (Some d) = Some d).
  { destruct d; [discriminate | reflexivity]. }
  rewrite Hg, (int_of_digits d Hd).
  destruct (Nat.ltb_spec max_str_digits (String.length d)) as [Hlong|Hshort].
  - split; [reflexivity | exact Hlong].
  - assert (Hall : all_digits d = true).
    { destruct d; [discriminate | exact Hd]. }
    assert (Hne : d <> EmptyString) by (destruct d; discriminate).
    destruct (int_digits_all d 0%Z false Hall ltac:(lia) (or_intror Hne))
      as (level & Hi & Hl).
    rewrite Hi.
    assert ((0 <=? level)%Z = true) as -> by now apply Z.leb_le.
    cbn [andb]. unfold say_result, say. split; [|now split].
    destruct (level <=? 100)%Z; [|reflexivity].
    now destruct (Windows.set_volume level w).
Qed.

Lemma volume_turn_witness :
  handle "turn the volume up to 250" (live, MkIO [] [])
  = Some (false,
          (live, speak "Volume must be between 0 and 100" (MkIO [] [])))
  /\ handle ("volume " ++ nines 4301) (live, MkIO [] [])
     = Some (false,
             (live,
              speak "Please specify a valid number for volume"
                (MkIO [] []))).
Proof.
  split.
  - refine (proj1 (proj2 (proj2
             (volume_turn "turn the volume up to 250" (Some "250") live
                (MkIO [] []) _ _)))); reflexivity.
  - pose proof (volume_turn ("volume " ++ nines 4301) (Some (nines 4301))
                  live (MkIO [] []) ltac:(vm_compute; reflexivity)
                  ltac:(vm_compute; reflexivity)) as V.
    cbv beta iota in V. destruct V as (_ & _ & V & _).
    replace (int (nines 4301)) with (@None Z) in V
      by (vm_compute; reflexivity).
    exact V.
Defined.

End Loop_facts.

(** ** More on the task store *)

Section Tasks_more.
Import Py Tasks TaskQueries Example.
Local Open Scope string_scope.
Local Open Scope list_scope.

Lemma save_tasks_fields (s : State) :
  let s' := snd (save_tasks s) in
  tasks s' = tasks s /\ writable s' = writable s
  /\ (writable s = true -> TASK_FILE s' <> None /\ synced s')
  /\ (writable s = false ->
      TASK_FILE s' = if torn s then Some Garbage else TASK_FILE s).
Proof.
  unfold save_tasks, now, synced, load_tasks. simpl.
  destruct (writable s) eqn:W; simpl; rewrite ?W;
    [repeat split; try discriminate; reflexivity|].
  destruct (torn s) eqn:T; simpl; rewrite ?W, ?T;
    repeat split; try discriminate; reflexivity.
Qed.

(** X13. [list_tasks] gives one line for each task [get_task_count]
    counts, with the same flag; without the flag both leave the completed
    tasks out, so the count is at most the number of tasks. *)
Theorem listing_and_count_agree (show_completed : bool) (s : State) :
  List.length (list_tasks show_completed s)
  = get_task_count show_completed s
  /\ list_tasks false s = map task_str (active (tasks s))
  /\ list_tasks true s = map task_str (tasks s)
  /\ (get_task_count false s <= get_task_count true s)%nat.
Proof.
  assert (A : list_tasks false s = map task_str (active (tasks s))).
  { unfold list_tasks. destruct (tasks s) as [|t ts]; [reflexivity|].
    destruct (active (t :: ts)); reflexivity. }
  assert (B : list_tasks true s = map task_str (tasks s)).
  { unfold list_tasks. destruct (tasks s); reflexivity. }
  repeat split; try assumption.
  - destruct show_completed; rewrite ?A, ?B, length_map; reflexivity.
  - unfold get_task_count, active. apply filter_length_le.
Qed.

Lemma find_update_found (task_id : Z) (f : Task -> Task) (ts : list Task) :
  (forall t, id (f t) = id t) ->
  find_task task_id (update_found task_id f ts)
  = option_map f (find_task task_id ts).
Proof.
  intros Hf. unfold find_task.
  induction ts as [|t ts IH]; simpl; [reflexivity|].
  destruct (id t =? task_id)%Z eqn:E; simpl.
  - now rewrite Hf, E.
  - now rewrite E.
Qed.

Lemma active_update_found (task_id : Z) (stamp : string) (ts : list Task)
    (t : Task) :
  find_task task_id ts = Some t -> completed t = false ->
  S (List.length
       (active (update_found task_id (mark_completed stamp) ts)))
  = List.length (active ts).
Proof.
  unfold find_task, active.
  induction ts as [|u ts IH]; simpl; [discriminate|].
  destruct (id u =? task_id)%Z eqn:E.
  - intros F Hc. inversion F; subst u. simpl. now rewrite Hc.
  - intros F Hc. simpl. destruct (completed u); simpl; auto.
Qed.

(** What [complete_task] does to a task that is there and not yet
    completed. *)
Lemma complete_task_found (task_id : Z) (s : State) (t : Task) :
  find_task task_id (tasks s) = Some t -> completed t = false ->
  fst (complete_task task_id s) = ("Completed task: " ++ description t)%string
  /\ tasks (snd (complete_task task_id s))
     = update_found task_id (mark_completed (clock s (tick s))) (tasks s)
  /\ writable (snd (complete_task task_id s)) = writable s
  /\ (writable s = true -> synced (snd (complete_task task_id s))).
Proof.
  intros F Hc.
  set (x := with_tasks (snd (now s))
              (update_found task_id (mark_completed (clock s (tick s)))
                 (tasks s))).
  assert (E : complete_task task_id s
              = (("Completed task: " ++ description t)%string,
                 snd (save_tasks x))).
  { unfold complete_task. rewrite F, Hc. unfold x, now.
    cbv beta iota zeta. cbn [fst snd tasks].
    now destruct (save_tasks _). }
  rewrite E. cbn [fst snd].
  destruct (save_tasks_fields x) as (T & W & Sy & _).
  rewrite T, W. unfold x. cbn [tasks writable with_tasks now snd].
  repeat split. intros Hw. apply Sy. exact Hw.
Qed.

(** X14. Completing a task that is in the list a second time changes
    nothing: the second call answers that the task is already completed
    and leaves the store, the file and the clock as the first call left
    them. *)
Theorem completing_twice (task_id : Z) (s : State) :
  In task_id (map id (tasks s)) ->
  let s1 := snd (complete_task task_id s) in
  complete_task task_id s1
  = (("Task " ++ str_of_int task_id ++ " is already completed")%string, s1).
Proof.
  intros Hin s1.
  destruct (find_task_found task_id (tasks s) Hin) as [t F].
  assert (F1 : exists t1,
             find_task task_id (tasks s1) = Some t1 /\ completed t1 = true).
  { unfold s1. destruct (completed t) eqn:Hc.
    - unfold complete_task. rewrite F, Hc. cbn [snd]. now exists t.
    - destruct (complete_task_found task_id s t F Hc) as (_ & T & _).
      rewrite T, find_update_found by reflexivity. rewrite F.
      eexists. split; reflexivity. }
  destruct F1 as (t1 & F1 & C1).
  unfold complete_task at 1. now rewrite F1, C1.
Qed.

Lemma completing_twice_witness :
  complete_task 2 (snd (complete_task 2 two_tasks))
  = ("Task 2 is already completed", snd (complete_task 2 two_tasks)).
Proof.
  apply (completing_twice 2 two_tasks).
  vm_compute. right. left. reflexivity.
Defined.

(** X15. Completing a task that is in the list and not yet completed
    takes one off the count of active tasks, leaves the number of tasks,
    their ids and their order as they were, and answers with the
    description of the task. *)
Theorem completing_counts (task_id : Z) (s : State) (t : Task) :
  find_task task_id (tasks s) = Some t -> completed t = false ->
  let s' := snd (complete_task task_id s) in
  fst (complete_task task_id s) = ("Completed task: " ++ description t)%string
  /\ S (get_task_count false s') = get_task_count false s
  /\ get_task_count true s' = get_task_count true s
  /\ map id (tasks s') = map id (tasks s)
  /\ map description (tasks s') = map description (tasks s).
Proof.
  intros F Hc s'.
  destruct (complete_task_found task_id s t F Hc) as (M & T & _).
  unfold s', get_task_count. rewrite T.
  destruct (ids_update_found task_id (mark_completed (clock s (tick s)))
              (tasks s)) as [I L]; [reflexivity|].
  repeat split; try assumption.
  - now apply active_update_found with (t := t).
  - clear. induction (tasks s) as [|u ts IH]; simpl; [reflexivity|].
    destruct (id u =? task_id)%Z; simpl; [reflexivity | now rewrite IH].
Qed.

Lemma completing_counts_witness :
  S (get_task_count false (snd (complete_task 1 two_tasks)))
  = get_task_count false two_tasks.
Proof.
  refine (proj1 (proj2 (completing_counts 1 two_tasks _ _ _)));
    reflexivity.
Defined.

Lemma find_task_none (task_id : Z) (ts : list Task) :
  find_task task_id ts = None <-> ~ In task_id (map id ts).
Proof.
  split.
  - intros F Hin. destruct (find_task_found _ _ Hin) as [t Ft]. congruence.
  - intros Hn. destruct (find_task task_id ts) as [t|] eqn:F; [|reflexivity].
    exfalso. apply Hn. apply find_task_In in F. destruct F as [Hin <-].
    now apply in_map.
Qed.

Lemma dense_ids (ts : list Task) (task_id : Z) :
  dense ts ->
  (In task_id (map id ts)
   <-> (1 <= task_id <= Z.of_nat (List.length ts))%Z).
Proof.
  unfold dense. intros ->. rewrite in_map_iff. split.
  - intros (n & <- & Hn). apply in_seq in Hn. lia.
  - intros Hr. exists (Z.to_nat task_id). split; [lia|].
    apply in_seq. lia.
Qed.

(** X16. With the ids 1..N in list order, an id is found exactly when it
    lies between 1 and N; with any other id [complete_task] and
    [delete_task] answer that the task is not found and change nothing,
    in memory or on disk. *)
Theorem ids_out_of_range (task_id : Z) (s : State) :
  dense (tasks s) ->
  (find_task task_id (tasks s) = None
   <-> (task_id < 1 \/ Z.of_nat (List.length (tasks s)) < task_id)%Z)
  /\ ((task_id < 1 \/ Z.of_nat (List.length (tasks s)) < task_id)%Z ->
      complete_task task_id s
      = (("Task " ++ str_of_int task_id ++ " not found")%string, s)
      /\ delete_task task_id s
         = (("Task " ++ str_of_int task_id ++ " not found")%string, s)).
Proof.
  intros D.
  assert (N : find_task task_id (tasks s) = None
              <-> (task_id < 1
                   \/ Z.of_nat (List.length (tasks s)) < task_id)%Z).
  { rewrite find_task_none, (dense_ids _ task_id D). lia. }
  split; [exact N|].
  intros Hr. apply N in Hr. unfold complete_task, delete_task.
  now rewrite Hr.
Qed.

Lemma ids_out_of_range_witness :
  complete_task 3 two_tasks = ("Task 3 not found", two_tasks)
  /\ delete_task 3 two_tasks = ("Task 3 not found", two_tasks).
Proof.
  refine (proj2 (ids_out_of_range 3 two_tasks _) _).
  - reflexivity.
  - right. vm_compute. reflexivity.
Defined.

Lemma renumber_keeps (idx : Z) (ts : list Task) :
  map (set_id 0) (renumber idx ts) = map (set_id 0) ts.
Proof.
  revert idx. induction ts as [|t ts IH]; intros idx; simpl;
    [reflexivity | now rewrite IH].
Qed.

Lemma ids_position (before after : list Task) (t : Task) (k : nat) :
  map id (before ++ t :: after)
  = map Z.of_nat (seq k (List.length (before ++ t :: after))) ->
  id t = Z.of_nat (k + List.length before).
Proof.
  revert k. induction before as [|u before IH]; intros k; simpl.
  - intros E. injection E as E0 _. rewrite E0. f_equal. lia.
  - intros E. injection E as _ E'. rewrite (IH _ E'). f_equal. lia.
Qed.

(** X17. With the ids 1..N in list order, [delete_task] with an id k
    between 1 and N takes the k-th task out and nothing else: the tasks
    before it and after it stay, in their order, with every field but the
    id as it was. *)
Theorem delete_takes_the_kth (task_id : Z) (s : State) :
  dense (tasks s) ->
  (1 <= task_id <= Z.of_nat (List.length (tasks s)))%Z ->
  let k := Z.to_nat task_id in
  map (set_id 0) (tasks (snd (delete_task task_id s)))
  = map (set_id 0) (firstn (k - 1) (tasks s) ++ skipn k (tasks s))
  /\ exists t,
       nth_error (tasks s) (k - 1) = Some t
       /\ fst (delete_task task_id s)
          = ("Deleted task: " ++ description t)%string.
Proof.
  intros D Hr k.
  assert (Hin : In task_id (map id (tasks s))) by now apply dense_ids.
  destruct (find_task_found _ _ Hin) as [t F].
  destruct (list_remove_found _ _ _ F) as (before & after & E & R & _).
  assert (Hk : List.length before = (k - 1)%nat).
  { assert (Hi : id t = task_id) by now apply find_task_In in F.
    unfold dense in D. rewrite E in D.
    apply ids_position in D. unfold k. lia. }
  assert (Hk' : k = S (List.length before)) by (unfold k in *; lia).
  unfold delete_task. rewrite F.
  destruct (save_tasks _) as [ok s2] eqn:Sv.
  assert (T : tasks s2 = renumber 1 (list_remove t (tasks s))).
  { change s2 with (snd (ok, s2)). rewrite <- Sv, tasks_save. reflexivity. }
  cbn [fst snd]. rewrite T, renumber_keeps, R, E. split.
  - rewrite <- Hk, firstn_app, firstn_all, Nat.sub_diag, firstn_O,
      app_nil_r.
    rewrite Hk'. rewrite skipn_app.
    rewrite skipn_all2 by lia.
    replace (S (List.length before) - List.length before)%nat with 1%nat
      by lia.
    reflexivity.
  - exists t. split; [|reflexivity].
    rewrite <- Hk, nth_error_app2, Nat.sub_diag by lia. reflexivity.
Qed.

Lemma delete_takes_the_kth_witness :
  map (set_id 0) (tasks (snd (delete_task 1 two_tasks)))
  = map (set_id 0) (firstn 0 (tasks two_tasks) ++ skipn 1 (tasks two_tasks)).
Proof.
  refine (proj1 (delete_takes_the_kth 1 two_tasks _ _)).
  - reflexivity.
  - vm_compute. split; discriminate.
Defined.

Lemma Forall_update_found (Q : Task -> Prop) (task_id : Z)
    (f : Task -> Task) (ts : list Task) :
  (forall t, Q t -> Q (f t)) -> Forall Q ts ->
  Forall Q (update_found task_id f ts).
Proof.
  intros Hf. induction 1 as [|t ts Ht Hts IH]; simpl; [constructor|].
  destruct (id t =? task_id)%Z; constructor; auto.
Qed.

Lemma Forall_list_remove (Q : Task -> Prop) (t : Task) (ts : list Task) :
  Forall Q ts -> Forall Q (list_remove t ts).
Proof.
  induction 1 as [|u ts Hu Hts IH]; simpl; [constructor|].
  destruct (Task_eq_dec u t); [assumption | now constructor].
Qed.

Lemma Forall_renumber (Q : Task -> Prop) (idx : Z) (ts : list Task) :
  (forall i t, Q t -> Q (set_id i t)) -> Forall Q ts ->
  Forall Q (renumber idx ts).
Proof.
  intros Hq H. revert idx.
  induction H as [|t ts Ht Hts IH]; intros idx; simpl; constructor; auto.
Qed.

(** X18. Tasks stay well formed: when every task has one of the three
    priorities and a completion time exactly when it is completed, this
    is still so after [add_task] (whatever priority it is given),
    [complete_task] and [delete_task]. *)
Theorem tasks_stay_well_formed (s : State) (op : operation) :
  Forall well_formed (tasks s) ->
  Forall well_formed (tasks (snd (apply op s))).
Proof.
  intros W.
  destruct op as [description priority | task_id | task_id]; cbn [apply].
  - unfold add_task.
    destruct (String.eqb description EmptyString); [exact W|].
    unfold now at 1. cbv beta iota zeta.
    match goal with
    | |- context [save_tasks ?x] =>
        destruct (save_tasks x) as [ok s3] eqn:Sv;
        assert (T : tasks s3 = tasks x)
          by (change s3 with (snd (ok, s3)); rewrite <- Sv;
              apply tasks_save)
    end.
    cbn [snd]. rewrite T. cbn [tasks with_tasks].
    apply Forall_app. split; [exact W|].
    constructor; [|constructor]. unfold well_formed.
    cbn [Tasks.priority completed completed_at]. split.
    + destruct (mem priority ["low"; "normal"; "high"]) eqn:M.
      * apply mem_In in M. exact M.
      * simpl. tauto.
    + split; [discriminate | congruence].
  - destruct (find_task task_id (tasks s)) as [t|] eqn:F.
    + destruct (completed t) eqn:Hc.
      * unfold complete_task. now rewrite F, Hc.
      * destruct (complete_task_found task_id s t F Hc) as (_ & T & _).
        rewrite T. apply Forall_update_found; [|exact W].
        intros u [Hp _]. split; [exact Hp|]. simpl.
        split; [discriminate | reflexivity].
    + unfold complete_task. now rewrite F.
  - unfold delete_task.
    destruct (find_task task_id (tasks s)) as [t|] eqn:F; [|exact W].
    destruct (save_tasks _) as [ok s2] eqn:Sv.
    assert (T : tasks s2 = renumber 1 (list_remove t (tasks s))).
    { change s2 with (snd (ok, s2)). rewrite <- Sv, tasks_save.
      reflexivity. }
    cbn [snd]. rewrite T.
    apply Forall_renumber; [|now apply Forall_list_remove].
    intros i u Hu. exact Hu.
Qed.

Lemma tasks_stay_well_formed_witness :
  Forall well_formed
    (tasks (snd (apply (AddTask "Water plants" "whenever") two_tasks))).
Proof.
  apply (tasks_stay_well_formed two_tasks (AddTask "Water plants" "whenever")).
  assert (Wf : forall t,
             (priority t = "high" \/ priority t = "normal") ->
             completed t = false -> completed_at t = None ->
             well_formed t).
  { intros t Hp Hc Ha. split.
    - simpl. destruct Hp as [-> | ->]; tauto.
    - rewrite Hc, Ha. split; [discriminate | congruence]. }
  change (tasks two_tasks) with
    [ MkTask 1 "Buy milk" "high" false "2025-01-01T00:00:00" None;
      MkTask 2 "Call mom" "normal" false "2025-01-01T00:00:02" None ].
  constructor; [|constructor; [|constructor]];
    (apply Wf; [simpl; tauto | reflexivity | reflexivity]).
Defined.

Lemma delete_task_found (task_id : Z) (s : State) (t : Task) :
  find_task task_id (tasks s) = Some t ->
  delete_task task_id s
  = (("Deleted task: " ++ description t)%string,
     snd (save_tasks
            (with_tasks s (renumber 1 (list_remove t (tasks s)))))).
Proof.
  intros F. unfold delete_task. rewrite F. now destruct (save_tasks _).
Qed.

(** X19. On a disk that takes the writes, every operation leaves on disk
    what it leaves in memory: if loading the file gave the list in memory
    before [add_task], [complete_task] or [delete_task], it does so
    after, whether the operation changed the list or turned the request
    down. *)
Theorem every_change_is_saved (s : State) (op : operation) :
  writable s = true -> synced s ->
  let s' := snd (apply op s) in
  writable s' = true /\ synced s'.
Proof.
  intros W Sy.
  destruct op as [description priority | task_id | task_id]; cbn [apply].
  - destruct (String.eqb_spec description EmptyString) as [-> | Hne].
    + unfold add_task. simpl. now split.
    + destruct (add_task_valid description priority s W Hne) as (W' & S' & _).
      now split.
  - destruct (find_task task_id (tasks s)) as [t|] eqn:F.
    + destruct (completed t) eqn:Hc.
      * unfold complete_task. rewrite F, Hc. now split.
      * destruct (complete_task_found task_id s t F Hc) as (_ & _ & W' & S').
        split; [congruence | auto].
    + unfold complete_task. rewrite F. now split.
  - destruct (find_task task_id (tasks s)) as [t|] eqn:F.
    + rewrite (delete_task_found _ _ _ F). cbn [snd].
      destruct (save_tasks_fields
                  (with_tasks s (renumber 1 (list_remove t (tasks s)))))
        as (_ & W' & S' & _).
      cbn [writable with_tasks] in W', S'.
      split; [congruence | exact (proj2 (S' W))].
    + unfold delete_task. rewrite F. now split.
Qed.

Lemma every_change_is_saved_witness :
  writable (snd (apply (DeleteTask 1) two_tasks)) = true
  /\ synced (snd (apply (DeleteTask 1) two_tasks)).
Proof.
  apply (every_change_is_saved two_tasks (DeleteTask 1)); reflexivity.
Defined.

(** X20. A write that fails is not reported: when the file cannot be
    written, [add_task] with a description that is not empty still
    answers "Added task: ..." and has the task in memory.  When it is
    [open] that fails, the file is as it was and loading it gives the
    list without the task; when the write fails after [open(..., 'w')]
    has emptied the file, what is left cannot be read and loading it
    gives the empty list: the tasks that were on disk are lost as
    well. *)
Theorem failed_write_is_silent (description priority : string) (s : State) :
  writable s = false -> description <> EmptyString ->
  let s' := snd (add_task description priority s) in
  fst (add_task description priority s)
  = ("Added task: " ++ description)%string
  /\ List.length (tasks s') = S (List.length (tasks s))
  /\ TASK_FILE s' = (if torn s then Some Garbage else TASK_FILE s)
  /\ (forall stale,
        tasks (load_tasks (with_tasks s' stale))
        = if torn s then [] else tasks (load_tasks s)).
Proof.
  intros W Hne. unfold add_task.
  destruct (String.eqb_spec description EmptyString) as [E | _];
    [contradiction|].
  unfold save_tasks, now, load_tasks. simpl. rewrite W. simpl.
  destruct (torn s) eqn:T; simpl; rewrite ?W, ?T; simpl.
  - repeat split. rewrite length_app. simpl. lia.
  - repeat split.
    + rewrite length_app. simpl. lia.
    + intros stale. destruct (TASK_FILE s) as [[[ts|] stamp|]|]; reflexivity.
Qed.

Lemma failed_write_is_silent_witness :
  fst (add_task "Call mom" "low"
         (MkState (tasks two_tasks) (TASK_FILE two_tasks) false true
            (clock two_tasks) (tick two_tasks)))
  = "Added task: Call mom"
  /\ tasks (load_tasks
              (snd (add_task "Call mom" "low"
                      (MkState (tasks two_tasks) (TASK_FILE two_tasks)
                         false true (clock two_tasks) (tick two_tasks)))))
     = []
  /\ tasks (load_tasks
              (snd (add_task "Call mom" "low"
                      (MkState (tasks two_tasks) (TASK_FILE two_tasks)
                         false false (clock two_tasks) (tick two_tasks)))))
     = tasks two_tasks.
Proof.
  destruct (failed_write_is_silent "Call mom" "low"
              (MkState (tasks two_tasks) (TASK_FILE two_tasks) false true
                 (clock two_tasks) (tick two_tasks))
              eq_refl ltac:(discriminate)) as (M & _ & _ & L).
  destruct (failed_write_is_silent "Call mom" "low"
              (MkState (tasks two_tasks) (TASK_FILE two_tasks) false false
                 (clock two_tasks) (tick two_tasks))
              eq_refl ltac:(discriminate)) as (_ & _ & _ & L').
  split; [exact M | split].
  - exact (L (tasks two_tasks ++ _)%list).
  - exact (L' (tasks two_tasks ++ _)%list).
Defined.

End Tasks_more.

(** ** More on the Windows module *)

Section Windows_more.
Import Py Windows WindowsChecks Example.
Local Open Scope string_scope.
Local Open Scope list_scope.

Lemma attempt_flag {OS : Type} {P : Platform OS}
    (act : OS -> OS * option exn) (ok : string) (handler : exn -> string)
    (w : State OS) :
  ANNOUNCE_ONLY (snd (attempt act ok handler w)) = ANNOUNCE_ONLY w.
Proof.
  unfold attempt. destruct (act (os w)) as [o [e|]]; reflexivity.
Qed.

(** X21. No call switches the safety flag; once [set_announce_mode] has
    set it, a call leaves the module as it is; and with the flag off, a
    call that fails one of the tests of its function (a level outside
    0..100, no volume interface, an application other than notepad, a
    path that is not an existing file) leaves the system untouched. *)
Theorem refused_calls_touch_nothing {OS : Type} {P : Platform OS}
    (w : State OS) (c : mutating_call) :
  ANNOUNCE_ONLY (snd (perform c w)) = ANNOUNCE_ONLY w
  /\ snd (perform c (set_announce_mode true w)) = set_announce_mode true w
  /\ (turned_down c w = true -> snd (perform c w) = w).
Proof.
  split; [|split].
  - destruct c; cbn [perform];
      unfold set_volume, mute, unmute, shutdown_system, restart_system,
        sleep_system, open_app, close_app, open_file, move_file,
        delete_file;
      destruct (ANNOUNCE_ONLY w) eqn:A; try exact A;
      repeat match goal with
             | |- context [if ?b then _ else _] => destruct b
             end;
      try exact A; try (rewrite attempt_flag; exact A).
    destruct (run_captured _ (os w)) as [o [[rc err]|e]];
      repeat match goal with
             | |- context [if ?b then _ else _] => destruct b
             end; exact A.
  - destruct c; cbn [perform];
      unfold set_volume, mute, unmute, shutdown_system, restart_system,
        sleep_system, open_app, close_app, open_file, move_file,
        delete_file;
      reflexivity.
  - destruct c; cbn [perform turned_down];
      unfold set_volume, mute, unmute, shutdown_system, restart_system,
        sleep_system, open_app, close_app, open_file, move_file,
        delete_file;
      destruct (ANNOUNCE_ONLY w); try reflexivity; try discriminate;
      intros T;
      repeat match goal with
             | |- context [if ?b then _ else _] =>
                 destruct b eqn:?; try reflexivity
             end;
      simpl in T; try discriminate.
Qed.

Lemma refused_calls_touch_nothing_witness :
  snd (perform (DeleteFile "C:\Users\sam\Desktop\reports") live) = live.
Proof.
  refine (proj2 (proj2 (refused_calls_touch_nothing live
                          (DeleteFile "C:\Users\sam\Desktop\reports"))) _).
  reflexivity.
Defined.

Lemma files_of_In (items : list (string * bool)) (p : string) :
  In p (files_of items) <-> In (p, true) items.
Proof.
  unfold files_of. rewrite in_map_iff. split.
  - intros ([q b] & <- & Hin). apply filter_In in Hin.
    destruct Hin as [Hin Hb]. simpl in Hb. now subst b.
  - intros Hin. exists (p, true). split; [reflexivity|].
    apply filter_In. now split.
Qed.

Lemma search_in_from_glob {OS : Type} {P : Platform OS}
    (paths : list string) (filename : string) (o : OS) :
  forall (acc : list string) (p : string),
    In p (search_in paths filename o acc) ->
    In p acc
    \/ exists path,
         In path paths
         /\ In (p, true)
              (fst (glob path ("*" ++ filename ++ "*")%string o)).
Proof.
  induction paths as [|path paths IH]; intros acc p; cbn [search_in].
  { intros Hin. now left. }
  destruct (glob path _ o) as [items err] eqn:G.
  assert (New : In p (acc ++ files_of items) ->
                In p acc
                \/ exists path0,
                     In path0 (path :: paths)
                     /\ In (p, true)
                          (fst (glob path0 ("*" ++ filename ++ "*")%string
                                  o))).
  { intros Hin. apply in_app_or in Hin. destruct Hin as [Hin | Hin];
      [now left|].
    right. exists path. split; [now left|]. rewrite G. cbn [fst].
    now apply files_of_In. }
  assert (Later : In p (search_in paths filename o (acc ++ files_of items)) ->
                  In p acc
                  \/ exists path0,
                       In path0 (path :: paths)
                       /\ In (p, true)
                            (fst (glob path0
                                    ("*" ++ filename ++ "*")%string o))).
  { intros Hin. destruct (IH _ _ Hin) as [Hacc | (q & Hq & Hg)].
    - now apply New.
    - right. exists q. split; [now right | exact Hg]. }
  destruct err as [e|]; [exact Later|].
  destruct (5 <=? List.length (acc ++ files_of items))%nat;
    [exact New | exact Later].
Qed.

(** X22. [search_file] returns nothing for an empty name, and otherwise
    only paths that the glob of one of the search folders gave as
    files: no folder, and nothing from elsewhere. *)
Theorem search_file_gives_files {OS : Type} {P : Platform OS}
    (filename p : string) (w : State OS) :
  In p (search_file filename w) ->
  filename <> EmptyString
  /\ exists path,
       In path (get_search_paths (os w))
       /\ In (p, true)
            (fst (glob path ("*" ++ filename ++ "*")%string (os w))).
Proof.
  unfold search_file.
  destruct (String.eqb_spec filename EmptyString) as [-> | Hne];
    [intros []|].
  intros Hin. split; [exact Hne|].
  destruct (search_in_from_glob _ _ _ _ _ Hin) as [[] | Hx]. exact Hx.
Qed.

Lemma search_file_gives_files_witness :
  "report7" <> EmptyString
  /\ exists path,
       In path (get_search_paths (os live))
       /\ In ("C:\Users\sam\Documents\report7.txt", true)
            (fst (glob path ("*" ++ "report7" ++ "*")%string (os live))).
Proof.
  apply (search_file_gives_files "report7"
           "C:\Users\sam\Documents\report7.txt" live).
  vm_compute. left. reflexivity.
Defined.

Lemma search_in_bound {OS : Type} {P : Platform OS}
    (paths : list string) (filename : string) (o : OS) (k : nat) :
  (forall path,
      In path paths ->
      snd (glob path ("*" ++ filename ++ "*")%string o) = None
      /\ (List.length
            (files_of (fst (glob path ("*" ++ filename ++ "*")%string o)))
          <= k)%nat) ->
  forall acc,
    (List.length acc <= 4)%nat ->
    (List.length (search_in paths filename o acc) <= 4 + k)%nat.
Proof.
  induction paths as [|path paths IH]; intros Hg acc Hacc;
    cbn [search_in]; [lia|].
  destruct (Hg path (or_introl eq_refl)) as [He Hk].
  destruct (glob path _ o) as [items err]. cbn [fst snd] in He, Hk.
  subst err.
  assert (Hn : (List.length (acc ++ files_of items) <= 4 + k)%nat).
  { rewrite length_app. lia. }
  destruct (Nat.leb_spec 5 (List.length (acc ++ files_of items)));
    [exact Hn|].
  apply IH; [|lia]. intros q Hq. apply Hg. now right.
Qed.

(** X23. What does bound [search_file]: when no glob raises and no
    search folder has more than [k] matching files, at most 4 + k paths
    are returned, since the search goes to the next folder only with
    fewer than 5 matches in hand. *)
Theorem search_file_bound {OS : Type} {P : Platform OS}
    (filename : string) (w : State OS) (k : nat) :
  (forall path,
      In path (get_search_paths (os w)) ->
      snd (glob path ("*" ++ filename ++ "*")%string (os w)) = None
      /\ (List.length
            (files_of
               (fst (glob path ("*" ++ filename ++ "*")%string (os w))))
          <= k)%nat) ->
  (List.length (search_file filename w) <= 4 + k)%nat.
Proof.
  intros Hg. unfold search_file.
  destruct (String.eqb filename EmptyString); [simpl; lia|].
  apply search_in_bound; [exact Hg | simpl; lia].
Qed.

Lemma search_file_bound_witness :
  (List.length (search_file "report" live) <= 4 + 6)%nat.
Proof.
  apply (search_file_bound "report" live 6).
  intros path Hin. simpl in Hin.
  destruct Hin as [<- | [<- | []]]; split; try reflexivity;
    vm_compute; lia.
Defined.

End Windows_more.

(** ** The command line of [speak] *)

Section Speech_facts.
Import Speech.
Local Open Scope string_scope.

Lemma unescape_escape (text : string) : unescape (escape text) = Some text.
Proof.
  induction text as [|c text IH]; [reflexivity|].
  cbn [escape]. destruct (Ascii.eqb c quote) eqn:E.
  - apply Ascii.eqb_eq in E. subst c.
    cbn [unescape]. rewrite Ascii.eqb_refl, IH. reflexivity.
  - cbn [unescape]. rewrite E, IH. reflexivity.
Qed.

(** X24. In the command [speak] builds, the text stands between
    [$speak.Speak('] and [')] with each single quote doubled, so no quote
    of the text stands alone there: read back with two quotes for one,
    the escaped text is the text, and two texts with the same escaped
    form are the same text. *)
Theorem speak_doubles_quotes (text : string) :
  unescape (escape text) = Some text
  /\ (forall other, escape other = escape text -> other = text)
  /\ exists before,
       speak_command text
       = before ++ "$speak.Speak('" ++ escape text ++ "')" ++ double_quote.
Proof.
  split; [apply unescape_escape | split].
  - intros other E.
    pose proof (unescape_escape other) as U. rewrite E in U.
    rewrite unescape_escape in U. congruence.
  - exists ("powershell -Command " ++ double_quote
            ++ "Add-Type -AssemblyName System.Speech; "
            ++ "$speak = New-Object System.Speech.Synthesis.SpeechSynthesizer; "
            ++ "$speak.SelectVoiceByHints('Female'); $speak.Rate = 0; ").
    reflexivity.
Qed.

Lemma speak_doubles_quotes_witness :
  unescape (escape "how's it going?") = Some "how's it going?"
  /\ "how's it going?" = "how's it going?".
Proof.
  split.
  - exact (proj1 (speak_doubles_quotes "how's it going?")).
  - apply (proj1 (proj2 (speak_doubles_quotes "how's it going?"))).
    reflexivity.
Defined.

End Speech_facts.

(** ** Targets and words *)

Section Target_facts.
Import Py Parser Words.
Local Open Scope string_scope.
Local Open Scope list_scope.

Lemma append_empty (s : string) : (s ++ EmptyString)%string = s.
Proof. induction s as [|c s IH]; simpl; [reflexivity | now rewrite IH]. Qed.

Lemma append_step (a b : string) (c : ascii) :
  ((a ++ String c EmptyString) ++ b)%string = (a ++ String c b)%string.
Proof. induction a as [|d a IH]; simpl; [reflexivity | now rewrite IH]. Qed.

Lemma has_space_append (a b : string) :
  has_space (a ++ b)%string = has_space a || has_space b.
Proof.
  induction a as [|c a IH]; simpl; [reflexivity|].
  now rewrite IH, orb_assoc.
Qed.

(** [split] goes through a word without cutting. *)
Lemma split_from_word (w rest cur : string) :
  has_space w = false ->
  split_from cur (w ++ rest)%string = split_from (cur ++ w)%string rest.
Proof.
  revert cur. induction w as [|c w IH]; intros cur Hw; simpl.
  - now rewrite append_empty.
  - simpl in Hw. apply orb_false_iff in Hw. destruct Hw as [Hc Hw].
    rewrite Hc, (IH _ Hw), append_step. reflexivity.
Qed.

Lemma split_from_words (s cur : string) :
  (cur = EmptyString \/ word cur) -> Forall word (split_from cur s).
Proof.
  revert cur. induction s as [|c s IH]; intros cur Hcur; simpl.
  - destruct cur; [constructor|].
    destruct Hcur as [Hc | Hc]; [discriminate|].
    cbn [flush]. constructor; [exact Hc | constructor].
  - destruct (is_space c) eqn:Sp.
    + apply Forall_app. split; [|apply IH; now left].
      destruct cur; [constructor|].
      destruct Hcur as [Hc | Hc]; [discriminate|].
      cbn [flush]. constructor; [exact Hc | constructor].
    + apply IH. right. split.
      * destruct cur; discriminate.
      * rewrite has_space_append. simpl. rewrite Sp.
        destruct Hcur as [-> | [_ ->]]; reflexivity.
Qed.

Lemma split_join (ws : list string) :
  Forall word ws -> split (join " " ws) = ws.
Proof.
  unfold split, join.
  induction 1 as [|w ws [Hne Hsp] Hws IH]; [reflexivity|].
  cbn [concat]. destruct ws as [|w2 ws].
  - rewrite <- (append_empty w) at 1.
    rewrite split_from_word by assumption. simpl.
    destruct w; [congruence | reflexivity].
  - rewrite split_from_word by assumption.
    cbn [append split_from]. change (is_space " ") with true.
    cbv iota. rewrite IH. destruct w; [congruence | reflexivity].
Qed.

Lemma strip_fillers_words (text : string) :
  Forall word (strip_fillers text).
Proof.
  unfold strip_fillers, without.
  apply Forall_forall. intros w Hw. apply filter_In in Hw.
  destruct Hw as [Hw _].
  assert (A : Forall word (split (lower text))).
  { apply split_from_words. now left. }
  exact (proj1 (Forall_forall _ _) A w Hw).
Qed.

(** X4. A target is made of the words its rule kept: split again on
    blanks, the target of "openfile" gives back exactly the cleaned words
    of the utterance other than "open" and "file", that of "open" the
    cleaned words without the first "open", that of "close" the cleaned
    words without the first "close", that of "search" the cleaned words
    other than "search", "find" and "file", that of "delete" the cleaned
    words other than "delete" and "file", in their order, and the target
    is these words joined by single spaces.  So each word of a target is
    a cleaned word of the utterance and none is a filler; the target of
    "openfile" has neither "open" nor "file" among its words, that of
    "search" none of "search", "find" and "file", that of "delete"
    neither "delete" nor "file". *)
Theorem target_is_made_of_words (text : string) (i t : string) :
  parse_command text = (Some i, Some t) ->
  In i ["openfile"; "open"; "close"; "search"; "delete"] ->
  split t <> []
  /\ t = join " " (split t)
  /\ ((i = "openfile" -> split t = extract_openfile (strip_fillers text))
      /\ (i = "open" -> split t = extract_open (strip_fillers text))
      /\ (i = "close" -> split t = extract_close (strip_fillers text))
      /\ (i = "search" -> split t = extract_search (strip_fillers text))
      /\ (i = "delete" -> split t = extract_delete (strip_fillers text)))
  /\ (forall w, In w (split t) ->
                In w (strip_fillers text) /\ ~ In w filler_words)
  /\ (i = "openfile" -> ~ In "open" (split t) /\ ~ In "file" (split t))
  /\ (i = "search" ->
      ~ In "search" (split t) /\ ~ In "find" (split t)
      /\ ~ In "file" (split t))
  /\ (i = "delete" -> ~ In "delete" (split t) /\ ~ In "file" (split t)).
Proof.
  unfold parse_command. set (toks := strip_fillers text). intros R Hi.
  pose proof (target_rules_eq toks) as T.
  destruct (first_entered target_table toks) as [[[i' g'] e']|] eqn:F.
  - apply first_entered_In in F. destruct F as [Hin _].
    destruct (truthy (e' toks)) eqn:Tr.
    + rewrite (parse_words_returned _ _ _ T) in R. inversion R; subst i' t.
      assert (Hw : Forall word (e' toks)).
      { apply Forall_forall. intros w Hw.
        apply (extract_incl toks _ _ _ Hin) in Hw.
        exact (proj1 (Forall_forall _ _) (strip_fillers_words text) w Hw). }
      rewrite (split_join _ Hw).
      split; [destruct (e' toks); discriminate|].
      split; [reflexivity|].
      split; [|split].
      * simpl in Hin.
        repeat destruct Hin as [Hin | Hin]; try (destruct Hin; fail);
          inversion Hin; subst;
          (split; [|split; [|split; [|split]]]); intros Hi';
          (discriminate Hi' || reflexivity).
      * intros w Hw'. apply (extract_incl toks _ _ _ Hin) in Hw'.
        split; [exact Hw'|].
        unfold toks, strip_fillers in Hw'. apply In_without in Hw'. tauto.
      * simpl in Hin.
        repeat destruct Hin as [Hin | Hin]; try (destruct Hin; fail);
          inversion Hin; subst;
          (split; [|split]); intros Hi'; try discriminate Hi';
          repeat split; intros Hc;
          unfold extract_openfile, extract_search, extract_delete in Hc;
          apply In_without in Hc; simpl in Hc; tauto.
    + rewrite (parse_words_emptied _ T) in R. discriminate.
  - rewrite (parse_words_later _ T) in R.
    destruct (later_rules toks) as [[[i0 t0]|] cw'] eqn:L;
      simpl in R; [|discriminate].
    inversion R; subst.
    destruct (later_rules_cases _ _ _ _ L) as [(Hv & _) | [_ Hn]];
      [|discriminate].
    inversion Hv; subst. simpl in Hi. intuition discriminate.
Qed.

Lemma target_is_made_of_words_witness :
  split "budget report" <> []
  /\ split "budget report"
     = extract_search (strip_fillers "Find my FILE budget   report please")
  /\ (forall w, In w (split "budget report") ->
                In w (strip_fillers "Find my FILE budget   report please")
                /\ ~ In w filler_words).
Proof.
  destruct (target_is_made_of_words "Find my FILE budget   report please"
              "search" "budget report") as (A & _ & E & B & _).
  - vm_compute. reflexivity.
  - simpl. tauto.
  - split; [exact A | split; [|exact B]].
    destruct E as (_ & _ & _ & E & _). exact (E eq_refl).
Defined.

End Target_facts.
